(** * express-prometheus-exporter: a shallow embedding of the middleware

    The development follows the two source files:
    - [src/express-utils.js]: route discovery over the host router's
      internals ([getPathFromRegex], [combineStacks], [getStacks],
      [extractRoutes]);
    - [src/index.js]: the recording callback ([recordResponse]) with its
      sampling counter, route catalog and metric updates, and the scrape
      route handler.

    JavaScript exceptions are explicit ([JS.completion]); the mutable
    closure variables of the middleware ([sampleCount], [allowedRoutes],
    [isAllowedRoutesInitialized]) and the calls made on the metric objects
    are threaded through a [State] record.  Numbers that the code compares
    or divides as doubles are primitive binary64 floats. *)

From Stdlib Require Import ZArith List String Ascii Bool Lia.
From Stdlib Require Import Floats Uint63 DecimalString.
Import ListNotations.
Local Open Scope string_scope.

(** ** JavaScript conventions *)

Module JS.

(** The outcome of running a piece of code: it completes normally with a
    value, or an exception propagates out of it. *)
Inductive completion (A : Type) : Type :=
| Normal (a : A)
| Throw (err : string).
Arguments Normal {A} a.
Arguments Throw {A} err.

Definition bind {A B : Type} (c : completion A) (k : A -> completion B)
  : completion B :=
  match c with
  | Normal a => k a
  | Throw e => Throw e
  end.

(** [try { c } catch (err) { }] followed by a fall-through value. *)
Definition tryCatch {A : Type} (c : completion A) (fallthrough : A) : A :=
  match c with
  | Normal a => a
  | Throw _ => fallthrough
  end.

(** Reading a property that may be backed by a getter. *)
Inductive access (A : Type) : Type :=
| Raises (err : string)
| Undefined
| Value (a : A).
Arguments Raises {A} err.
Arguments Undefined {A}.
Arguments Value {A} a.

(** Truthiness of a property holding a string or [undefined]: the empty
    string and [undefined] are falsy. *)
Definition truthy (v : option string) : bool :=
  match v with
  | Some (String _ _) => true
  | _ => false
  end.

Definition nonEmpty (s : string) : bool :=
  match s with
  | EmptyString => false
  | String _ _ => true
  end.

(** [String.prototype.toUpperCase] on ASCII text (HTTP verbs). *)
Definition upperChar (c : ascii) : ascii :=
  let n := nat_of_ascii c in
  if (97 <=? n)%nat && (n <=? 122)%nat then ascii_of_nat (n - 32) else c.

Fixpoint toUpperCase (s : string) : string :=
  match s with
  | EmptyString => EmptyString
  | String c s' => String (upperChar c) (toUpperCase s')
  end.

Fixpoint drop (n : nat) (s : string) : string :=
  match n, s with
  | O, _ => s
  | S _, EmptyString => EmptyString
  | S k, String _ s' => drop k s'
  end.

(** [s.replace(pat, rep)] with a string pattern: only the first
    occurrence is replaced. *)
Fixpoint replaceFirst (pat rep s : string) : string :=
  if String.prefix pat s then rep ++ drop (String.length pat) s
  else match s with
       | EmptyString => EmptyString
       | String c s' => String c (replaceFirst pat rep s')
       end.

(** [s.replace(/\\\//g, '/')]: every backslash-slash pair becomes a
    slash, scanning left to right. *)
Fixpoint unescapeSlashes (s : string) : string :=
  match s with
  | EmptyString => EmptyString
  | String c s' =>
      match s' with
      | String "/" s'' =>
          if Ascii.eqb c "\" then String "/" (unescapeSlashes s'')
          else String c (unescapeSlashes s')
      | _ => String c (unescapeSlashes s')
      end
  end.

(** [[a, b, c].filter((s) => !!s).join('')] over optional strings. *)
Definition joinTruthy (fragments : list (option string)) : string :=
  String.concat ""
    (map (fun f => match f with Some s => s | None => "" end)
         (filter truthy fragments)).

(** The double holding a non-negative integer [z]; exact below 2^53,
    which covers the counter (0 to 100) and the constants 100 and 1000. *)
Definition numberOfZ (z : Z) : float := PrimFloat.of_uint63 (Uint63.of_Z z).

(** [n.toString()] for an integer-valued number. *)
Definition toString (z : Z) : string := NilZero.string_of_int (Z.to_int z).

(** Values an authentication hook may resolve to, with their truthiness. *)
Inductive value : Type :=
| VUndefined
| VNull
| VBool (b : bool)
| VNumber (z : Z)
| VString (s : string)
| VObject.

Definition truthyValue (v : value) : bool :=
  match v with
  | VUndefined | VNull => false
  | VBool b => b
  | VNumber z => negb (z =? 0)%Z
  | VString s => nonEmpty s
  | VObject => true
  end.

(** [s] between double quotes. *)
Definition quoted (s : string) : string :=
  String (ascii_of_nat 34) (s ++ String (ascii_of_nat 34) EmptyString).

End JS.

Notation "x <- c ;; k" := (JS.bind c (fun x => k))
  (at level 61, c at next level, right associativity).

(** ** Regular expressions used as masks *)

Inductive regex : Type :=
| Eps
| Chr (c : ascii)
| WordChar
| Digit
| Cat (r1 r2 : regex)
| Or (r1 r2 : regex)
| Star (r : regex).

Definition Plus (r : regex) : regex := Cat r (Star r).

(** ** Router internals read by discovery *)

(** An element of [stack.route.stack]: one verb handler of a route. *)
Record RouteHandler : Type := mkHandler {
  h_method : option string;
  h_path : option string
}.

(** [stack.route]: a terminal route node. *)
Record Route : Type := mkRoute {
  r_path : option string;
  r_stack : list RouteHandler
}.

(** An element of a router's [stack].  [handleStack] is [stack.handle.stack]
    (present when the layer mounts a sub-router) and [regexp] the printed
    form of [stack.regexp]; layers of newer routers carry no [regexp]. *)
#[local] Unset Elimination Schemes.
Inductive Layer : Type :=
| mkLayer (routerPath : option string) (route : option Route)
          (regexp : option string) (handleStack : option (list Layer)).
#[local] Set Elimination Schemes.

Definition routerPath (l : Layer) : option string :=
  match l with mkLayer p _ _ _ => p end.
Definition route (l : Layer) : option Route :=
  match l with mkLayer _ r _ _ => r end.
Definition regexp (l : Layer) : option string :=
  match l with mkLayer _ _ re _ => re end.
Definition handleStack (l : Layer) : option (list Layer) :=
  match l with mkLayer _ _ _ h => h end.

Record Router : Type := mkRouter {
  router_stack : option (list Layer)
}.

(** The host application as [getStacks] reads it: [app.routes] (Express 3,
    verb to routes, in key order), [app._router], [app.stack] and
    [app.router], whose getter may throw. *)
Record App : Type := mkApp {
  app_routes : option (list (string * list RouteHandler));
  app__router : option Router;
  app_stack : option (list Layer);
  app_router : JS.access Router
}.

(** An entry pushed by [extractRoutes], and an element of [allowedRoutes]. *)
Record RouteEntry : Type := mkEntry {
  method : string;
  path : string
}.

(** ** Host functions that are not part of the two source files

    [recordResponse] and [extractRoutes] call [normalizePath] and
    [normalizeStatusCode] (module [./normalizers]), Node's [path.resolve]
    and the built-in [Number].  The embedding of the source takes them as
    parameters; the definitions below are instances used to evaluate it on
    concrete inputs. *)

Definition placeholder : string := "#val".

Definition isDigit (c : ascii) : bool :=
  let n := nat_of_ascii c in (48 <=? n)%nat && (n <=? 57)%nat.

Definition isWordChar (c : ascii) : bool :=
  let n := nat_of_ascii c in
  isDigit c || ((65 <=? n)%nat && (n <=? 90)%nat)
  || ((97 <=? n)%nat && (n <=? 122)%nat) || (n =? 95)%nat.

Fixpoint nullable (r : regex) : bool :=
  match r with
  | Eps => true
  | Chr _ | WordChar | Digit => false
  | Cat r1 r2 => nullable r1 && nullable r2
  | Or r1 r2 => nullable r1 || nullable r2
  | Star _ => true
  end.

(** [deriv c r] matches what [r] matches after a leading [c]; [None]
    stands for the pattern that matches nothing. *)
Fixpoint deriv (c : ascii) (r : regex) : option regex :=
  match r with
  | Eps => None
  | Chr d => if Ascii.eqb c d then Some Eps else None
  | WordChar => if isWordChar c then Some Eps else None
  | Digit => if isDigit c then Some Eps else None
  | Cat r1 r2 =>
      let left := match deriv c r1 with
                  | Some d1 => Some (Cat d1 r2)
                  | None => None
                  end in
      if nullable r1 then
        match left, deriv c r2 with
        | Some l, Some d2 => Some (Or l d2)
        | Some l, None => Some l
        | None, d2 => d2
        end
      else left
  | Or r1 r2 =>
      match deriv c r1, deriv c r2 with
      | Some d1, Some d2 => Some (Or d1 d2)
      | Some d1, None => Some d1
      | None, d2 => d2
      end
  | Star r1 =>
      match deriv c r1 with
      | Some d1 => Some (Cat d1 (Star r1))
      | None => None
      end
  end.

(** Length of the longest prefix of [s] matched by [r], if any. *)
Fixpoint longestMatch (r : regex) (s : string) : option nat :=
  match s with
  | EmptyString => if nullable r then Some O else None
  | String c s' =>
      match deriv c r with
      | Some d =>
          match longestMatch d s' with
          | Some n => Some (S n)
          | None => if nullable r then Some O else None
          end
      | None => if nullable r then Some O else None
      end
  end.

(** A character of the path, or the placeholder a mask has put in. *)
Definition token : Type := option ascii.

Fixpoint tokensOf (s : string) : list token :=
  match s with
  | EmptyString => []
  | String c s' => Some c :: tokensOf s'
  end.

(** The text from the head of [ts] up to the next placeholder. *)
Fixpoint textRun (ts : list token) : string :=
  match ts with
  | Some c :: rest => String c (textRun rest)
  | _ => EmptyString
  end.

(** One mask over the path: every non-empty match in text not yet
    substituted, leftmost first and without overlap, becomes the
    placeholder; [skip] counts characters of a match still to be dropped.
    Text already replaced is never matched again. *)
Fixpoint applyMask (mask : regex) (skip : nat) (ts : list token) : list token :=
  match ts with
  | [] => []
  | t :: rest =>
      match skip with
      | S k => applyMask mask k rest
      | O =>
          match t with
          | None => None :: applyMask mask O rest
          | Some c =>
              match longestMatch mask (textRun ts) with
              | Some (S n) => None :: applyMask mask n rest
              | _ => Some c :: applyMask mask O rest
              end
          end
      end
  end.

Definition isSlashToken (t : token) : bool :=
  match t with
  | Some c => Ascii.eqb c "/"
  | None => false
  end.

(** The segments between slashes. *)
Fixpoint splitTokens (ts : list token) : list (list token) :=
  match ts with
  | [] => [[]]
  | t :: rest =>
      if isSlashToken t then [] :: splitTokens rest
      else match splitTokens rest with
           | seg :: segs => (t :: seg) :: segs
           | [] => [[t]]
           end
  end.

Fixpoint joinTokens (segs : list (list token)) : list token :=
  match segs with
  | [] => []
  | [seg] => seg
  | seg :: rest => (seg ++ Some "/"%char :: joinTokens rest)%list
  end.

Definition isDigitToken (t : token) : bool :=
  match t with
  | Some c => isDigit c
  | None => false
  end.

(** A segment still in its own text that is a decimal number, like the 42
    of /users/42, is a dynamic segment whatever the masks. *)
Definition maskNumeric (seg : list token) : list token :=
  match seg with
  | [] => seg
  | _ :: _ => if forallb isDigitToken seg then [None] else seg
  end.

Fixpoint render (ts : list token) : string :=
  match ts with
  | [] => EmptyString
  | Some c :: rest => String c (render rest)
  | None :: rest => placeholder ++ render rest
  end.

(** Modelled from the spec: [normalizePath] of [./normalizers], which is
    not among the sources.  The spec has it apply each mask pattern to the
    raw path in configured order, replacing every match with the fixed
    placeholder token, no pattern being applied again to text already
    substituted, and has dynamic segments collapse even with no custom
    mask: /users/42 becomes /users/#val and /widgets/7 becomes
    /widgets/#val, while users and widgets stay. *)
Definition specNormalizePath (rawPath : string) (masks : list regex) : string :=
  render
    (joinTokens
       (map maskNumeric
          (splitTokens
             (fold_left (fun ts mask => applyMask mask O ts) masks
                (tokensOf rawPath))))).

(** A path segment that is a decimal number. *)
Definition isNumericSegment (s : string) : bool :=
  JS.nonEmpty s && forallb isDigit (list_ascii_of_string s).

(** Modelled from the spec: [normalizeStatusCode] of [./normalizers], which
    is not among the sources.  The spec has it map a numeric status to a
    coarse class such as [2xx]. *)
Definition specNormalizeStatusCode (code : Z) : string :=
  JS.toString (code / 100) ++ "xx".

Fixpoint splitSlash (s : string) : list string :=
  match s with
  | EmptyString => [EmptyString]
  | String c s' =>
      if Ascii.eqb c "/" then EmptyString :: splitSlash s'
      else match splitSlash s' with
           | seg :: rest => String c seg :: rest
           | [] => [String c EmptyString]
           end
  end.

Definition resolveSegment (acc : list string) (seg : string) : list string :=
  if String.eqb seg "" || String.eqb seg "." then acc
  else if String.eqb seg ".." then removelast acc
  else (acc ++ [seg])%list.

(** Modelled from the spec: path resolution ([path.resolve] belongs to the
    host platform).  The spec has it collapse [.], [..] and duplicate
    separators and return an absolute path; a relative argument is
    resolved against the working directory [cwd]. *)
Definition posixResolve (cwd : string) (p : string) : string :=
  let base := if String.prefix "/" p then [] else splitSlash cwd in
  "/" ++ String.concat "/" (fold_left resolveSegment (base ++ splitSlash p)%list []).

(** White space that [Number] drops around the text: tab to carriage
    return, the space and the no-break space. *)
Definition isSpace (c : ascii) : bool :=
  let n := nat_of_ascii c in
  ((9 <=? n)%nat && (n <=? 13)%nat) || (n =? 32)%nat || (n =? 160)%nat.

Fixpoint trimStart (s : string) : string :=
  match s with
  | EmptyString => EmptyString
  | String c s' => if isSpace c then trimStart s' else s
  end.

Definition reverse (s : string) : string :=
  string_of_list_ascii (rev (list_ascii_of_string s)).

Definition trim (s : string) : string :=
  reverse (trimStart (reverse (trimStart s))).

Definition digitValue (c : ascii) : option Z :=
  let n := nat_of_ascii c in
  if (48 <=? n)%nat && (n <=? 57)%nat then Some (Z.of_nat (n - 48))
  else if (97 <=? n)%nat && (n <=? 102)%nat then Some (Z.of_nat (n - 87))
  else if (65 <=? n)%nat && (n <=? 70)%nat then Some (Z.of_nat (n - 55))
  else None.

(** The leading digits of [s] in [base]: the number they spell after the
    digits already read ([acc]), how many there are, and what follows. *)
Fixpoint readDigits (base acc : Z) (s : string) : Z * nat * string :=
  match s with
  | EmptyString => (acc, O, EmptyString)
  | String c s' =>
      match digitValue c with
      | Some d =>
          if (d <? base)%Z
          then let '(v, n, rest) := readDigits base (base * acc + d)%Z s' in
               (v, S n, rest)
          else (acc, O, s)
      | None => (acc, O, s)
      end
  end.

(** The double nearest to [m * 10 ^ k] for [m > 0], ties to even. *)
Definition roundDecimal (negative : bool) (m : positive) (k : Z) : float :=
  let bits := (Z.log2 (Zpos m) + 1)%Z in
  if (0 <=? k)%Z then
    if (400 <? k)%Z then (if negative then neg_infinity else infinity)
    else SF2Prim (binary_normalize prec emax
                    ((if negative then Zneg m else Zpos m) * 10 ^ k)%Z 0%Z false)
  else
    if (bits + 1100 <? 3 * - k)%Z then (if negative then neg_zero else zero)
    else
      let den := (10 ^ (- k))%Z in
      let s := Z.max 0 (Z.log2 den + 66 - Z.log2 (Zpos m))%Z in
      let num := (Zpos m * 2 ^ s)%Z in
      let q := (num / den)%Z in
      let r := (num mod den)%Z in
      let loc := if (r =? 0)%Z then loc_Exact
                 else loc_Inexact (Z.compare (2 * r) den) in
      SF2Prim (binary_round_aux prec emax negative q (- s)%Z loc).

Definition signed (negative : bool) (m k : Z) : float :=
  match m with
  | Zpos p => roundDecimal negative p k
  | _ => if negative then neg_zero else zero
  end.

Definition ofInteger (count : nat) (v : Z) (rest : string) : float :=
  match count, rest with
  | S _, EmptyString => signed false v 0%Z
  | _, _ => nan
  end.

(** StrDecimalLiteral without its sign. *)
Definition unsignedDecimal (negative : bool) (s : string) : float :=
  if String.eqb s "Infinity" then (if negative then neg_infinity else infinity)
  else
    let '(whole, nWhole, afterWhole) := readDigits 10 0%Z s in
    let '(mantissa, nFraction, afterFraction) :=
      match afterWhole with
      | String "." rest => readDigits 10 whole rest
      | _ => (whole, O, afterWhole)
      end in
    match (nWhole + nFraction)%nat with
    | O => nan
    | S _ =>
        match afterFraction with
        | EmptyString => signed negative mantissa (- Z.of_nat nFraction)%Z
        | String c rest =>
            if Ascii.eqb c "e" || Ascii.eqb c "E" then
              let '(expNegative, digits) :=
                match rest with
                | String "-" d => (true, d)
                | String "+" d => (false, d)
                | _ => (false, rest)
                end in
              match readDigits 10 0%Z digits with
              | (e, S _, EmptyString) =>
                  signed negative mantissa
                    ((if expNegative then - e else e) - Z.of_nat nFraction)%Z
              | _ => nan
              end
            else nan
        end
    end.

(** [Number(s)] for a string [s], as the language defines the conversion:
    white space around the text is dropped; the empty text is 0; the text
    may be Infinity with an optional sign, a signed decimal literal with
    optional fraction and exponent, or an unsigned integer in base 16, 8
    or 2 behind 0x, 0o or 0b; anything else is NaN.  The value is the
    nearest double, ties to even. *)
Definition stringToNumber (s : string) : float :=
  match trim s with
  | EmptyString => zero
  | String "0" (String c rest) as text =>
      if Ascii.eqb c "x" || Ascii.eqb c "X" then
        let '(v, n, r) := readDigits 16 0%Z rest in ofInteger n v r
      else if Ascii.eqb c "o" || Ascii.eqb c "O" then
        let '(v, n, r) := readDigits 8 0%Z rest in ofInteger n v r
      else if Ascii.eqb c "b" || Ascii.eqb c "B" then
        let '(v, n, r) := readDigits 2 0%Z rest in ofInteger n v r
      else unsignedDecimal false text
  | String "-" rest => unsignedDecimal true rest
  | String "+" rest => unsignedDecimal false rest
  | text => unsignedDecimal false text
  end.

(** ** Constants of [src/index.js] *)

(** [/:\w+(?:_\w+)*/] *)
Definition expressPathParameterRegex : regex :=
  Cat (Chr ":") (Cat (Plus WordChar) (Star (Cat (Chr "_") (Plus WordChar)))).

Definition samplePercent : Z := 100.

(** ** Requests, responses, options and the middleware's state *)

Record Request : Type := mkRequest {
  originalUrl : string;
  req_method : string;
  req_app : App;
  req_contentLength : option string   (* req.get('Content-Length') *)
}.

Record Response : Type := mkResponse {
  statusCode : Z;
  res_contentLength : option string   (* res.get('Content-Length') *)
}.

(** The label object [{ route, method, status }], open to the transform
    hook. *)
Definition Labels : Type := list (string * string).

(** The options [recordResponse] and the scrape route read.  A hook that
    is not a function is [None]. *)
Record Options : Type := mkOptions {
  metricsPath : string;
  authenticate : option (Request -> JS.completion JS.value);
  collectAnyPaths : bool;
  requestLengthBuckets : list float;
  responseLengthBuckets : list float;
  extraMasks : list regex;
  opt_customLabels : list string;
  transformLabels :
    option (Labels -> Request -> Response -> JS.completion Labels);
  normalizeStatus : bool;
  sampleRate : float
}.

(** A call made on one of the four metric objects. *)
Inductive MetricCall : Type :=
| RequestCountInc (labels : Labels)
| RequestDurationObserve (labels : Labels) (seconds : float)
| RequestLengthObserve (labels : Labels) (bytes : float)
| ResponseLengthObserve (labels : Labels) (bytes : float).

(** The closure variables of one middleware instance, and the calls made
    so far on its metric objects (oldest first), whether they returned or
    threw. *)
Record State : Type := mkState {
  sampleCount : Z;
  isAllowedRoutesInitialized : bool;
  allowedRoutes : list RouteEntry;
  metricCalls : list MetricCall
}.

Definition initialState : State :=
  {| sampleCount := 0;
     isAllowedRoutesInitialized := false;
     allowedRoutes := [];
     metricCalls := [] |}.

(** One run of the recording callback: request, response and elapsed
    milliseconds. *)
Definition Served : Type := (Request * Response * float)%type.

(** What the scrape route handler does with the response. *)
Inductive HandlerAction : Type :=
| CallNext
| SetHeader (name value : string)
| EndWith (body : string).

(** [defaultOptions], restricted to the fields of [Options]. *)
Definition defaultOptions : Options :=
  {| metricsPath := "/metrics";
     authenticate := None;
     collectAnyPaths := false;
     requestLengthBuckets := [];
     responseLengthBuckets := [];
     extraMasks := [];
     opt_customLabels := [];
     transformLabels := None;
     normalizeStatus := true;
     sampleRate := 1%float |}.

(** ** Concrete inputs used in examples *)

Definition verb (m : string) : RouteHandler := mkHandler (Some m) None.

Definition routeLayer (p : string) (verbs : list string) : Layer :=
  mkLayer None (Some (mkRoute (Some p) (map verb verbs))) None None.

(** An Express 4 application serving GET /a, POST /a and GET /b. *)
Definition abApp : App :=
  mkApp None
    (Some (mkRouter (Some [routeLayer "/a" ["get"; "post"];
                           routeLayer "/b" ["get"]])))
    None JS.Undefined.

(** An Express 4 application with GET /widgets/:id and a router mounted
    under /api that serves GET and PUT /users/:id. *)
Definition widgetsApp : App :=
  mkApp None
    (Some (mkRouter (Some
       [routeLayer "/widgets/:id" ["get"];
        mkLayer None None (Some "/^\/api\/?(?=\/|$)/i")
          (Some [routeLayer "/users/:id" ["get"; "put"; "get"]])])))
    None JS.Undefined.

(** An application whose [router] getter throws and that exposes nothing
    else. *)
Definition throwingRouterApp : App :=
  mkApp None None None (JS.Raises "Error: 'app.router' is deprecated!").

(** A bare router of the newer kind: its stack mounts a sub-router in a
    layer that carries no [regexp]. *)
Definition bareRouter : App :=
  mkApp None None
    (Some [mkLayer None None None (Some [routeLayer "/users/:id" ["get"]])])
    JS.Undefined.

(** The same stack behind a working [app.router]. *)
Definition newerApp : App :=
  mkApp None None None
    (JS.Value (mkRouter (Some
       [mkLayer None None None (Some [routeLayer "/users/:id" ["get"]])]))).

Definition getRequest (app : App) (url : string) : Request :=
  mkRequest url "GET" app None.

Definition okResponse : Response := mkResponse 200 None.

Definition served (app : App) (url : string) : Served :=
  (getRequest app url, okResponse, 12%float).

Definition withSampleRate (rate : float) (o : Options) : Options :=
  {| metricsPath := metricsPath o;
     authenticate := authenticate o;
     collectAnyPaths := collectAnyPaths o;
     requestLengthBuckets := requestLengthBuckets o;
     responseLengthBuckets := responseLengthBuckets o;
     extraMasks := extraMasks o;
     opt_customLabels := opt_customLabels o;
     transformLabels := transformLabels o;
     normalizeStatus := normalizeStatus o;
     sampleRate := rate |}.

Definition anyPaths (o : Options) : Options :=
  {| metricsPath := metricsPath o;
     authenticate := authenticate o;
     collectAnyPaths := true;
     requestLengthBuckets := requestLengthBuckets o;
     responseLengthBuckets := responseLengthBuckets o;
     extraMasks := extraMasks o;
     opt_customLabels := opt_customLabels o;
     transformLabels := transformLabels o;
     normalizeStatus := normalizeStatus o;
     sampleRate := sampleRate o |}.

Definition withTransform
  (hook : Labels -> Request -> Response -> JS.completion Labels)
  (o : Options) : Options :=
  {| metricsPath := metricsPath o;
     authenticate := authenticate o;
     collectAnyPaths := collectAnyPaths o;
     requestLengthBuckets := requestLengthBuckets o;
     responseLengthBuckets := responseLengthBuckets o;
     extraMasks := extraMasks o;
     opt_customLabels := opt_customLabels o;
     transformLabels := Some hook;
     normalizeStatus := normalizeStatus o;
     sampleRate := sampleRate o |}.

Definition withAuthenticate (hook : Request -> JS.completion JS.value)
  (o : Options) : Options :=
  {| metricsPath := metricsPath o;
     authenticate := Some hook;
     collectAnyPaths := collectAnyPaths o;
     requestLengthBuckets := requestLengthBuckets o;
     responseLengthBuckets := responseLengthBuckets o;
     extraMasks := extraMasks o;
     opt_customLabels := opt_customLabels o;
     transformLabels := transformLabels o;
     normalizeStatus := normalizeStatus o;
     sampleRate := sampleRate o |}.

Definition withLengthBuckets (buckets : list float) (o : Options) : Options :=
  {| metricsPath := metricsPath o;
     authenticate := authenticate o;
     collectAnyPaths := collectAnyPaths o;
     requestLengthBuckets := buckets;
     responseLengthBuckets := buckets;
     extraMasks := extraMasks o;
     opt_customLabels := opt_customLabels o;
     transformLabels := transformLabels o;
     normalizeStatus := normalizeStatus o;
     sampleRate := sampleRate o |}.

(** A POST to /a carrying the given Content-Length header text. *)
Definition postRequest (app : App) (contentLength : string) : Request :=
  mkRequest "/a" "POST" app (Some contentLength).

(** ** Further parts of the two source files *)

(** [[...new Set(xs)]]: the elements of [xs] in order of first occurrence;
    [seen] holds the elements already in the set. *)
Fixpoint uniqueInOrder (seen : list string) (xs : list string) : list string :=
  match xs with
  | [] => []
  | x :: rest =>
      if existsb (String.eqb x) seen then uniqueInOrder seen rest
      else x :: uniqueInOrder (x :: seen) rest
  end.

Definition originalLabels : list string := ["route"; "method"; "status"].

(** [options.customLabels] as the middleware rebuilds it (lines 40 to 42)
    from the user's list of label names. *)
Definition customLabels (userLabels : list string) : list string :=
  uniqueInOrder [] (originalLabels ++ userLabels).

Fixpoint hasChar (c : ascii) (s : string) : bool :=
  match s with
  | EmptyString => false
  | String d s' => Ascii.eqb c d || hasChar c s'
  end.

(** A slash as a regular expression prints it: preceded by a backslash. *)
Fixpoint escapeSlashes (s : string) : string :=
  match s with
  | EmptyString => EmptyString
  | String c s' =>
      if Ascii.eqb c "/" then String "\" (String "/" (escapeSlashes s'))
      else String c (escapeSlashes s')
  end.

(** The characters of a mount path that the router compiles literally:
    letters, digits, underscore, hyphen and the slash.  A dot is escaped,
    and a colon, a star or a bracket makes a group, in the compiled
    pattern. *)
Definition isPlainChar (c : ascii) : bool :=
  isWordChar c || Ascii.eqb c "-" || Ascii.eqb c "/".

(** [path[path.length - 1] === '/'] *)
Fixpoint endsWithSlash (s : string) : bool :=
  match s with
  | EmptyString => false
  | String c EmptyString => Ascii.eqb c "/"
  | String _ s' => endsWithSlash s'
  end.

(** The mount path closed by one slash: /api/ for a router mounted at /api
    or at /api/, and / for one mounted at the root. *)
Definition mountFragment (mountPath : string) : string :=
  mountPath ++ (if endsWithSlash mountPath then "" else "/").

(** The printed form ([regexp.toString()]) of the pattern the router
    compiles for a layer mounted with [use] at [mountPath], when the path
    is made of plain characters: anchored at the start, an optional
    trailing slash, then a slash or the end; the flag [i] unless routing is
    case sensitive.  Mount paths with other characters are not covered. *)
Definition mountPattern (caseSensitive : bool) (mountPath : string)
  : option string :=
  if forallb isPlainChar (list_ascii_of_string mountPath)
  then Some ("/^" ++ escapeSlashes (mountFragment mountPath)
             ++ "?(?=\/|$)/" ++ (if caseSensitive then "" else "i"))
  else None.

(** A layer without its [handle.stack]. *)
Definition withoutHandleStack (l : Layer) : Layer :=
  match l with mkLayer p r re _ => mkLayer p r re None end.

(** A layer whose children, if it mounts a router, have lost whatever
    they mount themselves. *)
Definition withoutGrandchildren (l : Layer) : Layer :=
  match l with
  | mkLayer p r re (Some children) =>
      mkLayer p r re (Some (map withoutHandleStack children))
  | mkLayer p r re None => mkLayer p r re None
  end.

Definition appWithoutGrandchildren (app : App) : App :=
  let prune := option_map (map withoutGrandchildren) in
  let pruneRouter := fun r => mkRouter (prune (router_stack r)) in
  mkApp (app_routes app)
        (option_map pruneRouter (app__router app))
        (prune (app_stack app))
        match app_router app with
        | JS.Value r => JS.Value (pruneRouter r)
        | other => other
        end.

Definition isCountInc (c : MetricCall) : bool :=
  match c with RequestCountInc _ => true | _ => false end.
Definition isDurationObserve (c : MetricCall) : bool :=
  match c with RequestDurationObserve _ _ => true | _ => false end.
Definition isRequestLengthObserve (c : MetricCall) : bool :=
  match c with RequestLengthObserve _ _ => true | _ => false end.
Definition isResponseLengthObserve (c : MetricCall) : bool :=
  match c with ResponseLengthObserve _ _ => true | _ => false end.

(** An Express 3 application: GET /a registered twice and POST /b. *)
Definition legacyApp : App :=
  mkApp (Some [("get", [mkHandler (Some "get") (Some "/a");
                        mkHandler (Some "get") (Some "/a")]);
               ("post", [mkHandler (Some "post") (Some "/b")])])
        None None JS.Undefined.

Section Middleware.

(** Host functions (see above). *)
Variable resolve : string -> string.
Variable normalizePath : string -> list regex -> string.
Variable normalizeStatusCode : Z -> string.
Variable Number : string -> float.

(** *** [src/express-utils.js] *)

Definition getPathFromRegex (regexp : string) : string :=
  JS.unescapeSlashes
    (JS.replaceFirst "?(?=\/|$)/i" "" (JS.replaceFirst "/^" "" regexp)).

(** [{ routerPath, ...st }]: an own [routerPath] of [st] wins. *)
Definition withRouterPath (routerPath : string) (st : Layer) : Layer :=
  match st with
  | mkLayer None r re h => mkLayer (Some routerPath) r re h
  | mkLayer (Some own) r re h => mkLayer (Some own) r re h
  end.

Definition combineStacks (acc : list Layer) (stack : Layer)
  : JS.completion (list Layer) :=
  match handleStack stack with
  | Some children =>
      match regexp stack with
      | Some re =>
          let routerPath := getPathFromRegex re in
          JS.Normal (acc ++ map (withRouterPath routerPath) children)%list
      | None =>
          JS.Throw "TypeError: Cannot read properties of undefined (reading 'toString')"
      end
  | None => JS.Normal (acc ++ [stack])%list
  end.

(** [stack.reduce(combineStacks, [])] *)
Fixpoint reduceStacks (stack : list Layer) (acc : list Layer)
  : JS.completion (list Layer) :=
  match stack with
  | [] => JS.Normal acc
  | layer :: rest => acc' <- combineStacks acc layer ;; reduceStacks rest acc'
  end.

Definition getStacks (app : App) : JS.completion (list Layer) :=
  match app_routes app with
  | Some routes =>
      (* Express 3 *)
      JS.Normal
        (map (fun route => mkLayer None (Some (mkRoute None [route])) None None)
             (fold_left (fun acc kv => (acc ++ snd kv)%list) routes []))
  | None =>
      match app__router app with
      | Some (mkRouter (Some stack)) =>
          (* Express 4 *)
          reduceStacks stack []
      | _ =>
          match app_stack app with
          | Some stack =>
              (* Express 4 Router *)
              reduceStacks stack []
          | None =>
              (* Express 5: the whole branch sits in try/catch *)
              let guarded :=
                match app_router app with
                | JS.Raises err => JS.Throw err
                | JS.Undefined => JS.Normal None
                | JS.Value (mkRouter None) => JS.Normal None
                | JS.Value (mkRouter (Some stack)) =>
                    stacks <- reduceStacks stack [] ;; JS.Normal (Some stacks)
                end in
              match JS.tryCatch guarded None with
              | Some stacks => JS.Normal stacks
              | None => JS.Normal []
              end
          end
      end
  end.

Definition isLogged (routeLogged : list string) (method : string) : bool :=
  existsb (String.eqb method) routeLogged.

(** The inner loop of [extractRoutes] over [stack.route.stack], with the
    verbs logged so far for this route node. *)
Fixpoint routeEntries (stack : Layer) (rt : Route) (routeLogged : list string)
  (handlers : list RouteHandler) : list RouteEntry :=
  match handlers with
  | [] => []
  | route :: rest =>
      let method :=
        match h_method route with
        | Some m => if JS.truthy (h_method route)
                    then Some (JS.toUpperCase m) else None
        | None => None
        end in
      match method with
      | Some m =>
          if negb (isLogged routeLogged m) && JS.nonEmpty m
          then mkEntry m
                 (resolve (JS.joinTruthy
                             [routerPath stack; r_path rt; h_path route]))
               :: routeEntries stack rt (m :: routeLogged) rest
          else routeEntries stack rt routeLogged rest
      | None => routeEntries stack rt routeLogged rest
      end
  end.

Definition stackEntries (stack : Layer) : list RouteEntry :=
  match route stack with
  | Some rt => routeEntries stack rt [] (r_stack rt)
  | None => []
  end.

Definition extractRoutes (app : App) : JS.completion (list RouteEntry) :=
  stacks <- getStacks app ;; JS.Normal (flat_map stackEntries stacks).

(** *** [src/index.js] *)

Variable options : Options.

Definition isPathAllowed (allowedRoutes : list RouteEntry)
  (method' path' : string) : bool :=
  if (List.length allowedRoutes =? 0)%nat then false
  else existsb
         (fun route =>
            String.eqb (method route) method' && String.eqb (path route) path')
         allowedRoutes.

(** The argument of [allowedRoutes.push(...)]: the discovered routes with
    their paths normalised under the user masks followed by the
    route-parameter mask. *)
Definition normalizedAllowedRoutes (routes : list RouteEntry)
  : list RouteEntry :=
  map (fun route =>
         mkEntry (method route)
           (normalizePath (path route)
              (extraMasks options ++ [expressPathParameterRegex])))
      routes.

Definition initializeAllowedRoutes (st : State) (req : Request)
  : State * JS.completion unit :=
  match extractRoutes (req_app req) with
  | JS.Throw err => (st, JS.Throw err)
  | JS.Normal routes =>
      ({| sampleCount := sampleCount st;
          isAllowedRoutesInitialized := true;
          allowedRoutes :=
            (allowedRoutes st ++ normalizedAllowedRoutes routes)%list;
          metricCalls := metricCalls st |},
       JS.Normal tt)
  end.

Definition isSampled (sampleCount : Z) : bool :=
  PrimFloat.leb
    (PrimFloat.div (JS.numberOfZ sampleCount) (JS.numberOfZ samplePercent))
    (sampleRate options).

(** [sampleCount === samplePercent ? 0 : sampleCount + 1] *)
Definition advance (sampleCount : Z) : Z :=
  if (sampleCount =? samplePercent)%Z then 0%Z else (sampleCount + 1)%Z.

(** The metric objects.  They are made by [./metrics], which is not among
    the sources, with the classes of the metrics library that [index.js]
    also reads the scrape payload from, each with the label names
    [options.customLabels] as rebuilt on lines 40 to 42.  What follows is
    what that library does with a call. *)

(** The label names the four metrics are created with. *)
Definition labelNames : list string := customLabels (opt_customLabels options).

(** The first name in [labels] that the metric was not created with. *)
Definition undeclaredLabel (labels : Labels) : option string :=
  match filter (fun entry => negb (existsb (String.eqb (fst entry)) labelNames))
          labels with
  | [] => None
  | entry :: _ => Some (fst entry)
  end.

(** Every call first checks the names of its labels.  The message ends
    with the printed list of the declared names, left out here. *)
Definition labelError (labels : Labels) : JS.completion unit :=
  match undeclaredLabel labels with
  | Some label =>
      JS.Throw ("Error: Added label " ++ JS.quoted label
                ++ " is not included in initial labelset")
  | None => JS.Normal tt
  end.

(** A histogram then takes finite numbers only: handed NaN or an infinity,
    its [observe] throws a TypeError and observes nothing. *)
Definition valueError (v : float) : JS.completion unit :=
  if PrimFloat.is_finite v then JS.Normal tt
  else if PrimFloat.is_nan v
       then JS.Throw "TypeError: Value is not a valid number: NaN"
       else if PrimFloat.ltb v 0
            then JS.Throw "TypeError: Value is not a valid number: -Infinity"
            else JS.Throw "TypeError: Value is not a valid number: Infinity".

Definition callLabels (c : MetricCall) : Labels :=
  match c with
  | RequestCountInc labels => labels
  | RequestDurationObserve labels _ => labels
  | RequestLengthObserve labels _ => labels
  | ResponseLengthObserve labels _ => labels
  end.

(** The value handed to a histogram; the counter's [inc] is called without
    one and adds 1. *)
Definition callValue (c : MetricCall) : option float :=
  match c with
  | RequestCountInc _ => None
  | RequestDurationObserve _ v => Some v
  | RequestLengthObserve _ v => Some v
  | ResponseLengthObserve _ v => Some v
  end.

(** Whether a call returns or throws. *)
Definition outcome (c : MetricCall) : JS.completion unit :=
  match labelError (callLabels c) with
  | JS.Throw err => JS.Throw err
  | JS.Normal _ =>
      match callValue c with
      | Some v => valueError v
      | None => JS.Normal tt
      end
  end.

(** One call on a metric object: it joins the calls made, then returns
    or throws. *)
Definition call (c : MetricCall) (st : State) : State * JS.completion unit :=
  ({| sampleCount := sampleCount st;
      isAllowedRoutesInitialized := isAllowedRoutesInitialized st;
      allowedRoutes := allowedRoutes st;
      metricCalls := (metricCalls st ++ [c])%list |},
   outcome c).

(** Statement after statement: the rest runs only if the first returns. *)
Definition andThen (first : State * JS.completion unit)
  (rest : State -> State * JS.completion unit) : State * JS.completion unit :=
  match first with
  | (st, JS.Normal _) => rest st
  | (st, JS.Throw err) => (st, JS.Throw err)
  end.

(** The tail of [recordResponse], from [requestCount.inc(labels)] on. *)
Definition observe (labels : Labels) (req : Request) (res : Response)
  (time : float) (st : State) : State * JS.completion unit :=
  andThen (call (RequestCountInc labels) st) (fun st =>
  andThen (call (RequestDurationObserve labels
                   (PrimFloat.div time (JS.numberOfZ 1000))) st) (fun st =>
  andThen
    (if (0 <? List.length (requestLengthBuckets options))%nat then
       match req_contentLength req with
       | Some reqLength =>
           if JS.nonEmpty reqLength
           then call (RequestLengthObserve labels (Number reqLength)) st
           else (st, JS.Normal tt)
       | None => (st, JS.Normal tt)
       end
     else (st, JS.Normal tt)) (fun st =>
  if (0 <? List.length (responseLengthBuckets options))%nat then
    match res_contentLength res with
    | Some resLength =>
        if JS.nonEmpty resLength
        then call (ResponseLengthObserve labels (Number resLength)) st
        else (st, JS.Normal tt)
    | None => (st, JS.Normal tt)
    end
  else (st, JS.Normal tt)))).

(** Calls made one after the other, up to and including the first that
    throws. *)
Fixpoint makeCalls (calls : list MetricCall) (st : State)
  : State * JS.completion unit :=
  match calls with
  | [] => (st, JS.Normal tt)
  | c :: rest => andThen (call c st) (makeCalls rest)
  end.

(** From [const status = ...] on: label assembly, the transform hook and
    the metric updates. *)
Definition assembleAndObserve (path' : string) (req : Request)
  (res : Response) (time : float) (st : State) : State * JS.completion unit :=
  let status :=
    if normalizeStatus options
    then normalizeStatusCode (statusCode res)
    else JS.toString (statusCode res) in
  let labels : Labels :=
    [("route", path'); ("method", req_method req); ("status", status)] in
  let transformed :=
    match transformLabels options with
    | Some hook => hook labels req res
    | None => JS.Normal labels
    end in
  match transformed with
  | JS.Throw err => (st, JS.Throw err)
  | JS.Normal labels => observe labels req res time st
  end.

(** The callback handed to [ResponseTime]. *)
Definition recordResponse (st : State) (req : Request) (res : Response)
  (time : float) : State * JS.completion unit :=
  if String.eqb (originalUrl req) (metricsPath options) then (st, JS.Normal tt)
  else
    let st := {| sampleCount := advance (sampleCount st);
                 isAllowedRoutesInitialized := isAllowedRoutesInitialized st;
                 allowedRoutes := allowedRoutes st;
                 metricCalls := metricCalls st |} in
    if negb (isSampled (sampleCount st)) then (st, JS.Normal tt)
    else
      let path' := normalizePath (originalUrl req) (extraMasks options) in
      if negb (collectAnyPaths options) then
        let '(st, initialised) :=
          if negb (isAllowedRoutesInitialized st)
          then initializeAllowedRoutes st req
          else (st, JS.Normal tt) in
        match initialised with
        | JS.Throw err => (st, JS.Throw err)
        | JS.Normal _ =>
            if negb (isPathAllowed (allowedRoutes st) (req_method req) path')
            then (st, JS.Normal tt)
            else assembleAndObserve path' req res time st
        end
      else assembleAndObserve path' req res time st.

(** The callback run on a sequence of responses: each call starts from the
    closure variables and metrics the previous one left behind, whether
    that one returned or threw. *)
Definition serve (st : State) (r : Served) : State :=
  let '(req, res, time) := r in fst (recordResponse st req res time).

Definition serveAll (st : State) (rs : list Served) : State :=
  fold_left serve rs st.

(** The handler of [routeApp.get(metricsPath, ...)].  [contentType] and
    [metrics] are what the registry hands out; the awaited hook either
    settles to a value or throws (rejects), and [result] stays [null] in
    the second case. *)
Definition metricsHandler (req : Request) (contentType metrics : string)
  : list HandlerAction :=
  let respond := [SetHeader "Content-Type" contentType; EndWith metrics] in
  match authenticate options with
  | Some hook =>
      let result := JS.tryCatch (hook req) JS.VNull in
      if negb (JS.truthyValue result) then [CallNext] else respond
  | None => respond
  end.

(** [recordResponse] up to label assembly (lines 104 to 123): the state
    it leaves and, when the request gets that far, the canonical path. *)
Definition labelStage (st : State) (req : Request)
  : State * JS.completion (option string) :=
  if String.eqb (originalUrl req) (metricsPath options)
  then (st, JS.Normal None)
  else
    let st := {| sampleCount := advance (sampleCount st);
                 isAllowedRoutesInitialized := isAllowedRoutesInitialized st;
                 allowedRoutes := allowedRoutes st;
                 metricCalls := metricCalls st |} in
    if negb (isSampled (sampleCount st)) then (st, JS.Normal None)
    else
      let path' := normalizePath (originalUrl req) (extraMasks options) in
      if negb (collectAnyPaths options) then
        let '(st, initialised) :=
          if negb (isAllowedRoutesInitialized st)
          then initializeAllowedRoutes st req
          else (st, JS.Normal tt) in
        match initialised with
        | JS.Throw err => (st, JS.Throw err)
        | JS.Normal _ =>
            if negb (isPathAllowed (allowedRoutes st) (req_method req) path')
            then (st, JS.Normal None)
            else (st, JS.Normal (Some path'))
        end
      else (st, JS.Normal (Some path')).

(** The label object as first assembled, before the transform hook. *)
Definition assembledLabels (path' : string) (req : Request) (res : Response)
  : Labels :=
  [("route", path'); ("method", req_method req);
   ("status", if normalizeStatus options
              then normalizeStatusCode (statusCode res)
              else JS.toString (statusCode res))].

(** A request the gate is evaluated for: any but the scrape path. *)
Definition evaluated (r : Served) : bool :=
  negb (String.eqb (originalUrl (fst (fst r))) (metricsPath options)).

(** The catalog is empty and unflagged, or flagged and equal to the result
    of one discovery pass over the application of one of the requests. *)
Definition builtOnce (st : State) (rs : list Served) : Prop :=
  (isAllowedRoutesInitialized st = false /\ allowedRoutes st = []) \/
  (isAllowedRoutesInitialized st = true /\
   exists r routes,
     In r rs /\
     extractRoutes (req_app (fst (fst r))) = JS.Normal routes /\
     allowedRoutes st = normalizedAllowedRoutes routes).

(** The call, if any, that a size histogram receives for one request: one
    observation of [Number(header)] when the bucket list is non-empty and
    the header is present and non-empty, none otherwise. *)
Definition sizeCalls (histogram : Labels -> float -> MetricCall)
  (labels : Labels) (buckets : list float) (header : option string)
  : list MetricCall :=
  match buckets, header with
  | _ :: _, Some text =>
      if JS.nonEmpty text then [histogram labels (Number text)] else []
  | _, _ => []
  end.

(** The calls the tail of [recordResponse] sets out to make for one
    request, in order. *)
Definition plannedCalls (labels : Labels) (req : Request) (res : Response)
  (time : float) : list MetricCall :=
  ([RequestCountInc labels;
    RequestDurationObserve labels (PrimFloat.div time (JS.numberOfZ 1000))]
   ++ sizeCalls RequestLengthObserve labels
        (requestLengthBuckets options) (req_contentLength req)
   ++ sizeCalls ResponseLengthObserve labels
        (responseLengthBuckets options) (res_contentLength res))%list.

(** The label object after the transform hook, if it returns. *)
Definition transformedLabels (path' : string) (req : Request)
  (res : Response) : JS.completion Labels :=
  match transformLabels options with
  | Some hook =>
      labels <- hook (assembledLabels path' req res) req res ;; JS.Normal labels
  | None => JS.Normal (assembledLabels path' req res)
  end.

(** The local [method] of the inner loop of [extractRoutes]: the
    upper-cased verb of a handler, or [null]. *)
Definition handlerVerb (h : RouteHandler) : option string :=
  match h_method h with
  | Some m => if JS.truthy (h_method h) then Some (JS.toUpperCase m) else None
  | None => None
  end.

(** The values the sampling counter ranges over. *)
Definition counterValues : list Z := map Z.of_nat (seq 0 101).

(** What one layer contributes to the flattened stack when its mount
    pattern, if it has to be read, is there. *)
Definition expandLayer (l : Layer) : list Layer :=
  match handleStack l, regexp l with
  | Some children, Some re =>
      map (withRouterPath (getPathFromRegex re)) children
  | _, _ => [l]
  end.

(** A layer that mounts a router but carries no [regexp]. *)
Definition unreadableMount (l : Layer) : bool :=
  match handleStack l, regexp l with
  | Some _, None => true
  | _, _ => false
  end.

(** The entry, if any, of an Express 3 route. *)
Definition express3Entry (route : RouteHandler) : list RouteEntry :=
  match handlerVerb route with
  | Some verb =>
      [mkEntry verb
         (resolve (match h_path route with Some p => p | None => "" end))]
  | None => []
  end.

(** A function applied to the value of a normal completion. *)
Definition mapNormal {A B : Type} (f : A -> B) (c : JS.completion A)
  : JS.completion B :=
  match c with
  | JS.Normal a => JS.Normal (f a)
  | JS.Throw err => JS.Throw err
  end.

(** How many of the calls made so far are of one kind. *)
Definition tally (kind : MetricCall -> bool) (calls : list MetricCall) : nat :=
  List.length (filter kind calls).

(** The bookkeeping that every run of the callback preserves. *)
Definition balanced (calls : list MetricCall) : Prop :=
  tally isDurationObserve calls <= tally isCountInc calls /\
  tally isRequestLengthObserve calls <= tally isDurationObserve calls /\
  tally isResponseLengthObserve calls <= tally isDurationObserve calls /\
  (requestLengthBuckets options = [] ->
   tally isRequestLengthObserve calls = 0) /\
  (responseLengthBuckets options = [] ->
   tally isResponseLengthObserve calls = 0).

(** The transform hook, if there is one, leaves only label names that the
    metrics were created with. *)
Definition hookDeclares : Prop :=
  forall hook labels req res labels',
    transformLabels options = Some hook ->
    hook labels req res = JS.Normal labels' ->
    undeclaredLabel labels' = None.

(** ** Properties *)

(** *** What each part of the callback leaves untouched *)

Lemma call_frame (c : MetricCall) (st : State) :
  sampleCount (fst (call c st)) = sampleCount st /\
  isAllowedRoutesInitialized (fst (call c st)) = isAllowedRoutesInitialized st /\
  allowedRoutes (fst (call c st)) = allowedRoutes st.
Proof. repeat split. Qed.

Lemma makeCalls_frame calls : forall st,
  sampleCount (fst (makeCalls calls st)) = sampleCount st /\
  isAllowedRoutesInitialized (fst (makeCalls calls st))
    = isAllowedRoutesInitialized st /\
  allowedRoutes (fst (makeCalls calls st)) = allowedRoutes st.
Proof.
  induction calls as [|c calls IH]; intros st; cbn [makeCalls]; [auto|].
  unfold call, andThen. destruct (outcome c); cbn [fst]; [|auto].
  destruct (IH {| sampleCount := sampleCount st;
                  isAllowedRoutesInitialized := isAllowedRoutesInitialized st;
                  allowedRoutes := allowedRoutes st;
                  metricCalls := (metricCalls st ++ [c])%list |})
    as [H1 [H2 H3]].
  auto.
Qed.

(** The tail of the callback makes its planned calls in order and stops
    at the first that throws. *)
Lemma observe_makeCalls labels req res time st :
  observe labels req res time st
  = makeCalls (plannedCalls labels req res time) st.
Proof.
  unfold observe, plannedCalls, sizeCalls.
  destruct (requestLengthBuckets options) as [|b1 bs1];
    destruct (responseLengthBuckets options) as [|b2 bs2];
    destruct (req_contentLength req) as [reqLength|];
    destruct (res_contentLength res) as [resLength|];
    try destruct (JS.nonEmpty reqLength);
    try destruct (JS.nonEmpty resLength);
    cbn [makeCalls List.app List.length Nat.ltb Nat.leb];
    unfold andThen, call;
    repeat match goal with
           | |- context [outcome ?c] => destruct (outcome c) as [[]|]
           end;
    reflexivity.
Qed.

Lemma observe_frame labels req res time st :
  sampleCount (fst (observe labels req res time st)) = sampleCount st /\
  isAllowedRoutesInitialized (fst (observe labels req res time st))
    = isAllowedRoutesInitialized st /\
  allowedRoutes (fst (observe labels req res time st)) = allowedRoutes st.
Proof. rewrite observe_makeCalls. apply makeCalls_frame. Qed.

Lemma assembleAndObserve_frame path' req res time st :
  let st' := fst (assembleAndObserve path' req res time st) in
  sampleCount st' = sampleCount st /\
  isAllowedRoutesInitialized st' = isAllowedRoutesInitialized st /\
  allowedRoutes st' = allowedRoutes st.
Proof.
  unfold assembleAndObserve.
  destruct (transformLabels options) as [hook|]; cbn zeta.
  - destruct (hook _ req res); [apply observe_frame | cbn [fst]; auto].
  - apply observe_frame.
Qed.

Lemma initializeAllowedRoutes_frame st req :
  let st' := fst (initializeAllowedRoutes st req) in
  sampleCount st' = sampleCount st /\ metricCalls st' = metricCalls st.
Proof.
  unfold initializeAllowedRoutes.
  destruct (extractRoutes (req_app req)); cbn; auto.
Qed.

(** [recordResponse] is [labelStage] followed, when the request gets that
    far, by label assembly and the metric updates. *)
Lemma recordResponse_stages st req res time :
  recordResponse st req res time =
  match labelStage st req with
  | (st', JS.Normal (Some path')) => assembleAndObserve path' req res time st'
  | (st', JS.Normal None) => (st', JS.Normal tt)
  | (st', JS.Throw err) => (st', JS.Throw err)
  end.
Proof.
  unfold recordResponse, labelStage.
  destruct (String.eqb (originalUrl req) (metricsPath options)); [reflexivity|].
  cbn zeta. cbn [sampleCount].
  destruct (negb (isSampled (advance (sampleCount st)))); [reflexivity|].
  destruct (negb (collectAnyPaths options)); [|reflexivity].
  cbn [isAllowedRoutesInitialized].
  destruct (negb (isAllowedRoutesInitialized st)).
  - destruct (initializeAllowedRoutes _ req) as [st' [u|err]]; [|reflexivity].
    destruct (negb (isPathAllowed _ _ _)); reflexivity.
  - cbn [allowedRoutes].
    destruct (negb (isPathAllowed _ _ _)); reflexivity.
Qed.

Lemma labelStage_metricCalls st req :
  metricCalls (fst (labelStage st req)) = metricCalls st.
Proof.
  unfold labelStage.
  destruct (String.eqb (originalUrl req) (metricsPath options)); [reflexivity|].
  cbn zeta. cbn [sampleCount].
  destruct (negb (isSampled (advance (sampleCount st)))); [reflexivity|].
  destruct (negb (collectAnyPaths options)); [|reflexivity].
  cbn [isAllowedRoutesInitialized].
  destruct (negb (isAllowedRoutesInitialized st)).
  - match goal with
    | |- context [initializeAllowedRoutes ?s req] =>
        pose proof (initializeAllowedRoutes_frame s req) as [_ Hm];
        destruct (initializeAllowedRoutes s req) as [st' [u|err]]
    end; cbn [fst] in *.
    + destruct (negb (isPathAllowed _ _ _)); exact Hm.
    + exact Hm.
  - cbn [allowedRoutes]. destruct (negb (isPathAllowed _ _ _)); reflexivity.
Qed.

Lemma labelStage_sampleCount st req :
  sampleCount (fst (labelStage st req)) =
  if String.eqb (originalUrl req) (metricsPath options)
  then sampleCount st else advance (sampleCount st).
Proof.
  unfold labelStage.
  destruct (String.eqb (originalUrl req) (metricsPath options)); [reflexivity|].
  cbn zeta. cbn [sampleCount].
  destruct (negb (isSampled (advance (sampleCount st)))); [reflexivity|].
  destruct (negb (collectAnyPaths options)); [|reflexivity].
  cbn [isAllowedRoutesInitialized].
  destruct (negb (isAllowedRoutesInitialized st)).
  - match goal with
    | |- context [initializeAllowedRoutes ?s req] =>
        pose proof (initializeAllowedRoutes_frame s req) as [Hc _];
        destruct (initializeAllowedRoutes s req) as [st' [u|err]]
    end; cbn [fst] in *.
    + destruct (negb (isPathAllowed _ _ _)); exact Hc.
    + exact Hc.
  - cbn [allowedRoutes]. destruct (negb (isPathAllowed _ _ _)); reflexivity.
Qed.

Lemma recordResponse_sampleCount st req res time :
  sampleCount (fst (recordResponse st req res time)) =
  if String.eqb (originalUrl req) (metricsPath options)
  then sampleCount st else advance (sampleCount st).
Proof.
  rewrite recordResponse_stages, <- labelStage_sampleCount.
  destruct (labelStage st req) as [st' [[p|]|err]]; cbn [fst]; try reflexivity.
  apply assembleAndObserve_frame.
Qed.

Lemma advance_range (c : Z) :
  (0 <= c <= 100)%Z -> (0 <= advance c <= 100)%Z.
Proof.
  unfold advance, samplePercent. destruct (c =? 100)%Z eqn:E; lia.
Qed.

Lemma advance_mod (c : Z) :
  (0 <= c <= 100)%Z -> advance c = ((c + 1) mod 101)%Z.
Proof.
  unfold advance, samplePercent. intros H.
  destruct (c =? 100)%Z eqn:E.
  - apply Z.eqb_eq in E. subst. reflexivity.
  - apply Z.eqb_neq in E. rewrite Z.mod_small; lia.
Qed.

Lemma serve_sampleCount_range st r :
  (0 <= sampleCount st <= 100)%Z -> (0 <= sampleCount (serve st r) <= 100)%Z.
Proof.
  destruct r as [[req res] time]. unfold serve.
  rewrite recordResponse_sampleCount.
  destruct (String.eqb _ _); auto using advance_range.
Qed.

Lemma serveAll_sampleCount_range rs : forall st,
  (0 <= sampleCount st <= 100)%Z ->
  (0 <= sampleCount (serveAll st rs) <= 100)%Z.
Proof.
  unfold serveAll.
  induction rs as [|r rs IH]; intros st H; cbn [fold_left]; auto.
  apply IH, serve_sampleCount_range, H.
Qed.

(** *** The scrape path and the sampling counter *)

Lemma serveAll_app st rs1 rs2 :
  serveAll st (rs1 ++ rs2) = serveAll (serveAll st rs1) rs2.
Proof. unfold serveAll. apply fold_left_app. Qed.

(** C4: a request whose raw URL equals the configured scrape-endpoint path
    makes the recording callback return at once, with the counter, the
    catalog and the metric calls all unchanged; dropping such a request
    from any sequence of requests changes nothing of the resulting
    state. *)
Theorem C4_scrape_path_request_is_inert st req res time :
  originalUrl req = metricsPath options ->
  recordResponse st req res time = (st, JS.Normal tt) /\
  forall st0 before after,
    serveAll st0 (before ++ (req, res, time) :: after)
    = serveAll st0 (before ++ after).
Proof.
  intros Hurl.
  assert (Hstep : forall s, recordResponse s req res time = (s, JS.Normal tt)).
  { intros s. unfold recordResponse.
    rewrite Hurl, String.eqb_refl. reflexivity. }
  split; [apply Hstep|].
  intros st0 before after.
  rewrite !serveAll_app. generalize (serveAll st0 before). intros s.
  unfold serveAll. cbn [fold_left].
  replace (serve s (req, res, time)) with s; [reflexivity|].
  unfold serve. now rewrite Hstep.
Qed.

(** C5 (as the code has it): initially and after every request the sampler
    counter lies in the closed interval from 0 to 100, and one request
    moves it exactly once, by the rule "100 goes to 0, anything else goes
    up by one" when the gate is evaluated and not at all when the request
    is for the scrape path. *)
Theorem C5_sampleCount_within_0_and_100 :
  (forall rs : list Served,
      (0 <= sampleCount (serveAll initialState rs) <= 100)%Z) /\
  (forall st req res time,
      sampleCount (fst (recordResponse st req res time)) =
      if String.eqb (originalUrl req) (metricsPath options)
      then sampleCount st
      else if (sampleCount st =? 100)%Z then 0%Z else (sampleCount st + 1)%Z).
Proof.
  split.
  - intros rs. apply serveAll_sampleCount_range. cbn. lia.
  - intros. apply recordResponse_sampleCount.
Qed.

(** *** The route catalog *)

Lemma isPathAllowed_iff (routes : list RouteEntry) (m p : string) :
  isPathAllowed routes m p = true <->
  exists entry, In entry routes /\ method entry = m /\ path entry = p.
Proof.
  unfold isPathAllowed. destruct routes as [|r routes].
  - cbn. split; [discriminate|]. intros [e [[] _]].
  - cbn [List.length Nat.eqb]. rewrite existsb_exists.
    split; intros [e [Hin H]]; exists e; split; auto.
    + apply andb_true_iff in H as [H1 H2].
      apply String.eqb_eq in H1, H2. auto.
    + destruct H as [H1 H2]. subst. now rewrite !String.eqb_refl.
Qed.

Lemma isPathAllowed_empty (m p : string) : isPathAllowed [] m p = false.
Proof. reflexivity. Qed.

(** One run of the gate either leaves flag and catalog alone, or runs the
    one discovery that sets the flag. *)
Lemma labelStage_catalog st req :
  let st' := fst (labelStage st req) in
  (isAllowedRoutesInitialized st' = isAllowedRoutesInitialized st /\
   allowedRoutes st' = allowedRoutes st) \/
  (isAllowedRoutesInitialized st = false /\
   isAllowedRoutesInitialized st' = true /\
   exists routes,
     extractRoutes (req_app req) = JS.Normal routes /\
     allowedRoutes st'
     = (allowedRoutes st ++ normalizedAllowedRoutes routes)%list).
Proof.
  unfold labelStage.
  destruct (String.eqb (originalUrl req) (metricsPath options)); [left; auto|].
  cbn zeta. cbn [sampleCount].
  destruct (negb (isSampled (advance (sampleCount st)))); [left; auto|].
  destruct (negb (collectAnyPaths options)); [|left; auto].
  cbn [isAllowedRoutesInitialized].
  destruct (isAllowedRoutesInitialized st) eqn:Hflag; cbn [negb].
  - cbn [allowedRoutes]. destruct (negb (isPathAllowed _ _ _)); left; auto.
  - unfold initializeAllowedRoutes.
    destruct (extractRoutes (req_app req)) as [routes|err] eqn:Hx.
    + cbn [allowedRoutes].
      destruct (negb (isPathAllowed _ _ _)); right; cbn; eauto.
    + left. cbn. auto.
Qed.

Lemma recordResponse_catalog st req res time :
  isAllowedRoutesInitialized (fst (recordResponse st req res time))
  = isAllowedRoutesInitialized (fst (labelStage st req)) /\
  allowedRoutes (fst (recordResponse st req res time))
  = allowedRoutes (fst (labelStage st req)).
Proof.
  rewrite recordResponse_stages.
  destruct (labelStage st req) as [st' [[p|]|err]]; cbn [fst]; auto.
  split; apply assembleAndObserve_frame.
Qed.

Lemma serve_frozen st r :
  isAllowedRoutesInitialized st = true ->
  isAllowedRoutesInitialized (serve st r) = true /\
  allowedRoutes (serve st r) = allowedRoutes st.
Proof.
  intros Hflag. destruct r as [[req res] time]. unfold serve.
  destruct (recordResponse_catalog st req res time) as [-> ->].
  destruct (labelStage_catalog st req) as [[H1 H2]|[H1 _]].
  - rewrite H1, H2. auto.
  - congruence.
Qed.

Lemma serveAll_frozen rs : forall st,
  isAllowedRoutesInitialized st = true ->
  isAllowedRoutesInitialized (serveAll st rs) = true /\
  allowedRoutes (serveAll st rs) = allowedRoutes st.
Proof.
  unfold serveAll.
  induction rs as [|r rs IH]; intros st Hflag; cbn [fold_left]; auto.
  destruct (serve_frozen st r Hflag) as [Hf Ha].
  destruct (IH _ Hf) as [Hf' Ha']. split; congruence.
Qed.

Lemma serveAll_builtOnce rs : forall done st,
  builtOnce st done -> builtOnce (serveAll st rs) (done ++ rs).
Proof.
  unfold serveAll.
  induction rs as [|r rs IH]; intros done st Hst; cbn [fold_left].
  - now rewrite app_nil_r.
  - replace (done ++ r :: rs)%list with ((done ++ [r]) ++ rs)%list
      by now rewrite <- app_assoc.
    apply IH.
    destruct Hst as [[Hflag Hempty]|[Hflag [r0 [routes [Hin [Hx Ha]]]]]].
    + destruct r as [[req res] time]. unfold serve.
      destruct (recordResponse_catalog st req res time) as [Ef Ea].
      destruct (labelStage_catalog st req)
        as [[H1 H2]|[_ [H1 [routes [Hx Ha]]]]].
      * left. split; congruence.
      * right. split; [congruence|].
        exists (req, res, time), routes. split; [apply in_or_app; cbn; auto|].
        split; [exact Hx|]. rewrite Ea, Ha, Hempty. reflexivity.
    + destruct (serve_frozen st r Hflag) as [Hf Hsame].
      right. split; [exact Hf|].
      exists r0, routes. split; [apply in_or_app; auto|].
      split; [exact Hx|]. congruence.
Qed.

Lemma discovery_trigger st req res time routes :
  isAllowedRoutesInitialized st = false ->
  collectAnyPaths options = false ->
  originalUrl req <> metricsPath options ->
  isSampled (advance (sampleCount st)) = true ->
  extractRoutes (req_app req) = JS.Normal routes ->
  isAllowedRoutesInitialized (fst (recordResponse st req res time)) = true /\
  allowedRoutes (fst (recordResponse st req res time))
  = (allowedRoutes st ++ normalizedAllowedRoutes routes)%list.
Proof.
  intros Hflag Hany Hurl Hs Hx.
  destruct (recordResponse_catalog st req res time) as [-> ->].
  unfold labelStage.
  apply String.eqb_neq in Hurl. rewrite Hurl. cbn zeta. cbn [sampleCount].
  rewrite Hs, Hany. cbn [negb isAllowedRoutesInitialized]. rewrite Hflag.
  cbn [negb]. unfold initializeAllowedRoutes. rewrite Hx. cbn [allowedRoutes].
  destruct (negb (isPathAllowed _ _ _)); cbn; auto.
Qed.

Lemma discovery_failure st req res time err :
  isAllowedRoutesInitialized st = false ->
  collectAnyPaths options = false ->
  originalUrl req <> metricsPath options ->
  isSampled (advance (sampleCount st)) = true ->
  extractRoutes (req_app req) = JS.Throw err ->
  snd (recordResponse st req res time) = JS.Throw err /\
  isAllowedRoutesInitialized (fst (recordResponse st req res time)) = false /\
  allowedRoutes (fst (recordResponse st req res time)) = allowedRoutes st.
Proof.
  intros Hflag Hany Hurl Hs Hx.
  unfold recordResponse.
  apply String.eqb_neq in Hurl. rewrite Hurl. cbn zeta. cbn [sampleCount].
  rewrite Hs, Hany. cbn [negb isAllowedRoutesInitialized]. rewrite Hflag.
  cbn [negb]. unfold initializeAllowedRoutes. rewrite Hx. cbn. auto.
Qed.

(** C2 (as the code has it): the catalog is built by the first discovery
    pass that completes.  After any sequence of requests it is either still
    empty with the flag unset, or the flag is set and its contents are
    those of a single discovery pass (over the application of one of the
    requests served); once the flag is set no later request changes flag or
    contents; a request that passes the gate with enforcement enabled while
    the flag is unset runs discovery: if the pass completes, the flag is
    set and the pass stored; if it throws, the callback ends with that
    exception, flag and catalog stay as they were, and the next such
    request runs discovery again; and lookup answers true exactly when the
    list holds an entry with equal method and equal path. *)
Theorem C2_catalog_built_once_and_exact_lookup :
  (forall rs : list Served, builtOnce (serveAll initialState rs) rs) /\
  (forall st rs,
      isAllowedRoutesInitialized st = true ->
      isAllowedRoutesInitialized (serveAll st rs) = true /\
      allowedRoutes (serveAll st rs) = allowedRoutes st) /\
  (forall st req res time routes,
      isAllowedRoutesInitialized st = false ->
      allowedRoutes st = [] ->
      collectAnyPaths options = false ->
      originalUrl req <> metricsPath options ->
      isSampled (advance (sampleCount st)) = true ->
      extractRoutes (req_app req) = JS.Normal routes ->
      isAllowedRoutesInitialized (fst (recordResponse st req res time)) = true /\
      allowedRoutes (fst (recordResponse st req res time))
      = normalizedAllowedRoutes routes) /\
  (forall st req res time err,
      isAllowedRoutesInitialized st = false ->
      collectAnyPaths options = false ->
      originalUrl req <> metricsPath options ->
      isSampled (advance (sampleCount st)) = true ->
      extractRoutes (req_app req) = JS.Throw err ->
      snd (recordResponse st req res time) = JS.Throw err /\
      isAllowedRoutesInitialized (fst (recordResponse st req res time))
      = false /\
      allowedRoutes (fst (recordResponse st req res time))
      = allowedRoutes st) /\
  (forall routes m p,
      isPathAllowed routes m p = true <->
      exists entry, In entry routes /\ method entry = m /\ path entry = p) /\
  (isPathAllowed [mkEntry "GET" "/a"; mkEntry "POST" "/a"; mkEntry "GET" "/b"]
     "GET" "/a" = true /\
   isPathAllowed [mkEntry "GET" "/a"; mkEntry "POST" "/a"; mkEntry "GET" "/b"]
     "DELETE" "/a" = false /\
   isPathAllowed [mkEntry "GET" "/a"; mkEntry "POST" "/a"; mkEntry "GET" "/b"]
     "GET" "/c" = false).
Proof.
  split; [|split; [|split; [|split; [|split]]]].
  - intros rs. apply (serveAll_builtOnce rs [] initialState).
    left. split; reflexivity.
  - intros st rs. apply serveAll_frozen.
  - intros st req res time routes Hflag Hempty Hany Hurl Hs Hx.
    destruct (discovery_trigger st req res time routes Hflag Hany Hurl Hs Hx)
      as [Hf Ha].
    split; [exact Hf|]. rewrite Ha, Hempty. reflexivity.
  - apply discovery_failure.
  - apply isPathAllowed_iff.
  - repeat split.
Qed.

(** *** Discovery failures *)

Lemma extractRoutes_of_no_stacks app :
  getStacks app = JS.Normal [] -> extractRoutes app = JS.Normal [].
Proof. unfold extractRoutes. intros ->. reflexivity. Qed.

Lemma labelStage_allowed st req st' path' :
  labelStage st req = (st', JS.Normal (Some path')) ->
  collectAnyPaths options = false ->
  isPathAllowed (allowedRoutes st') (req_method req) path' = true.
Proof.
  unfold labelStage. intros H Hany. rewrite Hany in H. cbn [negb] in H.
  destruct (String.eqb (originalUrl req) (metricsPath options));
    [discriminate|].
  cbn zeta in H. cbn [sampleCount isAllowedRoutesInitialized] in H.
  destruct (negb (isSampled (advance (sampleCount st)))); [discriminate|].
  destruct (negb (isAllowedRoutesInitialized st)).
  - destruct (initializeAllowedRoutes _ req) as [st1 [u|err]];
      [|discriminate].
    destruct (isPathAllowed (allowedRoutes st1) _ _) eqn:E; cbn [negb] in H;
      [|discriminate].
    inversion H; subst. exact E.
  - cbn [allowedRoutes] in H.
    destruct (isPathAllowed (allowedRoutes st) _ _) eqn:E; cbn [negb] in H;
      [|discriminate].
    inversion H; subst. exact E.
Qed.

(** C6 (as the code has it): when discovery reaches its guarded last
    branch (no [app.routes], no [app._router.stack], no [app.stack]), it
    never throws, and an error raised there - by reading [app.router] or
    while expanding [app.router.stack] - yields the empty route list; an
    error raised while expanding [app._router.stack] or [app.stack], which
    sit outside the guard, propagates; lookup in an empty catalog is false
    for every pair; and with enforcement enabled a request that leaves the
    catalog empty records nothing. *)
Theorem C6_guarded_discovery_failure_gives_empty_catalog :
  (forall app,
      app_routes app = None ->
      (forall stack, app__router app <> Some (mkRouter (Some stack))) ->
      app_stack app = None ->
      (exists stacks, getStacks app = JS.Normal stacks) /\
      (forall err, app_router app = JS.Raises err ->
                   extractRoutes app = JS.Normal []) /\
      (forall stack err,
          app_router app = JS.Value (mkRouter (Some stack)) ->
          reduceStacks stack [] = JS.Throw err ->
          extractRoutes app = JS.Normal [])) /\
  (forall app stack err,
      app_routes app = None ->
      app__router app = Some (mkRouter (Some stack)) \/
      ((forall stack', app__router app <> Some (mkRouter (Some stack'))) /\
       app_stack app = Some stack) ->
      reduceStacks stack [] = JS.Throw err ->
      extractRoutes app = JS.Throw err) /\
  (forall m p, isPathAllowed [] m p = false) /\
  (forall st req res time,
      collectAnyPaths options = false ->
      allowedRoutes (fst (recordResponse st req res time)) = [] ->
      metricCalls (fst (recordResponse st req res time)) = metricCalls st).
Proof.
  split; [|split; [|split]].
  - intros app Hroutes Hrouter Hstack.
    assert (Hget : getStacks app =
                   match JS.tryCatch
                           match app_router app with
                           | JS.Raises err => JS.Throw err
                           | JS.Undefined => JS.Normal None
                           | JS.Value (mkRouter None) => JS.Normal None
                           | JS.Value (mkRouter (Some stack)) =>
                               stacks <- reduceStacks stack [] ;;
                               JS.Normal (Some stacks)
                           end None with
                   | Some stacks => JS.Normal stacks
                   | None => JS.Normal []
                   end).
    { unfold getStacks. rewrite Hroutes, Hstack.
      destruct (app__router app) as [[[stack|]]|]; try reflexivity.
      now destruct (Hrouter stack). }
    split; [|split].
    + rewrite Hget. destruct (JS.tryCatch _ None); eauto.
    + intros err Herr. apply extractRoutes_of_no_stacks.
      rewrite Hget, Herr. reflexivity.
    + intros stack err Hval Hthrow. apply extractRoutes_of_no_stacks.
      rewrite Hget, Hval, Hthrow. reflexivity.
  - intros app stack err Hroutes Hbranch Hthrow.
    unfold extractRoutes, getStacks. rewrite Hroutes.
    destruct Hbranch as [-> | [Hrouter ->]].
    + rewrite Hthrow. reflexivity.
    + destruct (app__router app) as [[[stack'|]]|];
        try (rewrite Hthrow; reflexivity).
      now destruct (Hrouter stack').
  - reflexivity.
  - intros st req res time Hany.
    destruct (recordResponse_catalog st req res time) as [_ ->].
    rewrite recordResponse_stages.
    pose proof (labelStage_metricCalls st req) as Hm.
    destruct (labelStage st req) as [st' [[p|]|err]] eqn:Hstage;
      cbn [fst] in *; auto.
    intros Hempty.
    pose proof (labelStage_allowed st req st' p Hstage Hany) as Hallowed.
    rewrite Hempty in Hallowed. discriminate.
Qed.

(** *** Label assembly and the metric updates *)

Lemma assembleAndObserve_labels path' req res time st :
  assembleAndObserve path' req res time st =
  match match transformLabels options with
        | Some hook => hook (assembledLabels path' req res) req res
        | None => JS.Normal (assembledLabels path' req res)
        end with
  | JS.Throw err => (st, JS.Throw err)
  | JS.Normal labels => observe labels req res time st
  end.
Proof. reflexivity. Qed.

(** C10: when the request reaches label assembly and the configured
    transformLabels hook throws on the assembled labels, the callback ends
    with that exception and no call has been made on any metric: the
    request counter and the three histograms are as they were. *)
Theorem C10_transform_error_aborts_before_metrics
  st req res time hook err st' path' :
  transformLabels options = Some hook ->
  labelStage st req = (st', JS.Normal (Some path')) ->
  hook (assembledLabels path' req res) req res = JS.Throw err ->
  recordResponse st req res time = (st', JS.Throw err) /\
  metricCalls st' = metricCalls st.
Proof.
  intros Hhook Hstage Hthrow. split.
  - rewrite recordResponse_stages, Hstage, assembleAndObserve_labels.
    rewrite Hhook, Hthrow. reflexivity.
  - pose proof (labelStage_metricCalls st req) as Hm.
    rewrite Hstage in Hm. exact Hm.
Qed.

Lemma valueError_finite (v : float) :
  valueError v = JS.Normal tt <-> PrimFloat.is_finite v = true.
Proof.
  unfold valueError. destruct (PrimFloat.is_finite v); split; intros H;
    try reflexivity; try discriminate.
  destruct (PrimFloat.is_nan v); [discriminate|].
  destruct (PrimFloat.ltb v 0); discriminate.
Qed.

(** A call returns exactly when all its label names are declared and its
    value, if it has one, is finite. *)
Lemma outcome_returns (c : MetricCall) :
  outcome c = JS.Normal tt <->
  undeclaredLabel (callLabels c) = None /\
  (forall v, callValue c = Some v -> PrimFloat.is_finite v = true).
Proof.
  unfold outcome, labelError.
  destruct (undeclaredLabel (callLabels c)) as [label|].
  - split; [discriminate | intros [H _]; discriminate].
  - destruct (callValue c) as [v|].
    + rewrite valueError_finite. split.
      * intros Hv. split; [reflexivity|]. intros w [= <-]. exact Hv.
      * intros [_ Hv]. now apply Hv.
    + split; [|reflexivity]. intros _. split; [reflexivity|]. discriminate.
Qed.

(** The three labels the middleware assembles are always declared. *)
Lemma assembledLabels_declared path' req res :
  undeclaredLabel (assembledLabels path' req res) = None.
Proof. reflexivity. Qed.

(** What [makeCalls] leaves in the list of calls made: all of them when
    none throws, and otherwise those up to and including the first that
    throws. *)
Lemma makeCalls_log calls : forall st,
  (snd (makeCalls calls st) = JS.Normal tt /\
   metricCalls (fst (makeCalls calls st)) = (metricCalls st ++ calls)%list /\
   forall c, In c calls -> outcome c = JS.Normal tt) \/
  (exists before c after err,
      calls = (before ++ c :: after)%list /\
      (forall b, In b before -> outcome b = JS.Normal tt) /\
      outcome c = JS.Throw err /\
      snd (makeCalls calls st) = JS.Throw err /\
      metricCalls (fst (makeCalls calls st))
      = (metricCalls st ++ before ++ [c])%list).
Proof.
  induction calls as [|c calls IH]; intros st; cbn [makeCalls].
  - left. cbn. rewrite app_nil_r. repeat split. intros c [].
  - unfold call, andThen. destruct (outcome c) as [[]|err] eqn:Hc.
    + destruct (IH {| sampleCount := sampleCount st;
                      isAllowedRoutesInitialized :=
                        isAllowedRoutesInitialized st;
                      allowedRoutes := allowedRoutes st;
                      metricCalls := (metricCalls st ++ [c])%list |})
        as [[Hs [Hm Hall]]|[before [x [after [e [Heq [Hb [Hx [Hs Hm]]]]]]]]].
      * left. split; [exact Hs|]. split.
        -- rewrite Hm. cbn [metricCalls]. now rewrite <- app_assoc.
        -- intros y [<-|Hy]; auto.
      * right. exists (c :: before), x, after, e. subst calls.
        split; [reflexivity|]. split; [intros y [<-|Hy]; auto|].
        split; [exact Hx|]. split; [exact Hs|].
        rewrite Hm. cbn [metricCalls]. now rewrite <- app_assoc.
    + right. exists [], c, calls, err. cbn.
      repeat split; auto. intros b [].
Qed.

Lemma recordResponse_observes st req res time st' path' labels :
  labelStage st req = (st', JS.Normal (Some path')) ->
  transformedLabels path' req res = JS.Normal labels ->
  recordResponse st req res time = observe labels req res time st'.
Proof.
  intros Hstage Hlabels.
  rewrite recordResponse_stages, Hstage, assembleAndObserve_labels.
  unfold transformedLabels in Hlabels.
  destruct (transformLabels options) as [hook|].
  - destruct (hook _ req res); cbn in Hlabels; [|discriminate].
    now inversion Hlabels.
  - now inversion Hlabels.
Qed.

(** C8 (as the code has it): for every recorded request the callback sets
    out to make, in this order, the counter increment, the duration
    observation, the request-size observation and the response-size
    observation, a size observation being planned exactly when its bucket
    list is non-empty and its Content-Length header is present and
    non-empty, with the value [Number(header)] whatever that conversion
    yields; each call is made only if the calls before it have returned.
    A call returns exactly when its label names are declared - those the
    middleware assembles always are - and its value, if it has one, is
    finite; otherwise it throws, which ends the callback.  So a
    non-numeric request header reaches the request-size histogram as NaN,
    the callback ends with the histogram's exception, and the
    response-size histogram is not reached. *)
Theorem C8_size_histograms_follow_buckets_and_header :
  (forall labels req res time st,
      observe labels req res time st
      = makeCalls
          ([RequestCountInc labels;
            RequestDurationObserve labels
              (PrimFloat.div time (JS.numberOfZ 1000))]
           ++ sizeCalls RequestLengthObserve labels
                (requestLengthBuckets options) (req_contentLength req)
           ++ sizeCalls ResponseLengthObserve labels
                (responseLengthBuckets options) (res_contentLength res))%list
          st) /\
  (forall st req res time st' path' labels,
      labelStage st req = (st', JS.Normal (Some path')) ->
      transformedLabels path' req res = JS.Normal labels ->
      recordResponse st req res time = observe labels req res time st') /\
  (forall histogram labels header, sizeCalls histogram labels [] header = []) /\
  (forall histogram labels buckets,
      sizeCalls histogram labels buckets None = [] /\
      sizeCalls histogram labels buckets (Some "") = []) /\
  (forall histogram labels b buckets c text,
      sizeCalls histogram labels (b :: buckets) (Some (String c text))
      = [histogram labels (Number (String c text))]) /\
  (forall calls st,
      (snd (makeCalls calls st) = JS.Normal tt /\
       metricCalls (fst (makeCalls calls st)) = (metricCalls st ++ calls)%list /\
       forall c, In c calls -> outcome c = JS.Normal tt) \/
      (exists before c after err,
          calls = (before ++ c :: after)%list /\
          (forall b, In b before -> outcome b = JS.Normal tt) /\
          outcome c = JS.Throw err /\
          snd (makeCalls calls st) = JS.Throw err /\
          metricCalls (fst (makeCalls calls st))
          = (metricCalls st ++ before ++ [c])%list)) /\
  (forall c,
      outcome c = JS.Normal tt <->
      undeclaredLabel (callLabels c) = None /\
      (forall v, callValue c = Some v -> PrimFloat.is_finite v = true)) /\
  (forall path' req res,
      undeclaredLabel (assembledLabels path' req res) = None).
Proof.
  split; [|split; [|split; [|split; [|split; [|split; [|split]]]]]].
  - apply observe_makeCalls.
  - apply recordResponse_observes.
  - intros. reflexivity.
  - intros histogram labels [|b buckets]; split; reflexivity.
  - intros. reflexivity.
  - intros calls st. apply makeCalls_log.
  - apply outcome_returns.
  - apply assembledLabels_declared.
Qed.

(** *** The scrape route *)

(** C9: with an authenticate hook configured, a hook that throws (or
    rejects) or that settles to a falsy value makes the handler call next
    and do nothing else - no header, no status, no body; only a hook that
    settles to a truthy value, or no hook at all, makes it answer with the
    registry's content type and serialised metrics. *)
Theorem C9_failed_authentication_passes_control_onward
  req contentType metrics :
  (forall hook,
      authenticate options = Some hook ->
      (forall err, hook req = JS.Throw err ->
                   metricsHandler req contentType metrics = [CallNext]) /\
      (forall v, hook req = JS.Normal v -> JS.truthyValue v = false ->
                 metricsHandler req contentType metrics = [CallNext]) /\
      (forall v, hook req = JS.Normal v -> JS.truthyValue v = true ->
                 metricsHandler req contentType metrics
                 = [SetHeader "Content-Type" contentType; EndWith metrics])) /\
  (authenticate options = None ->
   metricsHandler req contentType metrics
   = [SetHeader "Content-Type" contentType; EndWith metrics]) /\
  (metricsHandler req contentType metrics = [CallNext] \/
   metricsHandler req contentType metrics
   = [SetHeader "Content-Type" contentType; EndWith metrics]).
Proof.
  unfold metricsHandler.
  split; [|split].
  - intros hook ->. repeat split.
    + intros err ->. reflexivity.
    + intros v -> Hv. cbn. now rewrite Hv.
    + intros v -> Hv. cbn. now rewrite Hv.
  - intros ->. reflexivity.
  - destruct (authenticate options) as [hook|]; auto.
    destruct (negb _); auto.
Qed.

(** *** Which masks reach the normaliser *)

Lemma labelStage_path st req st' path' :
  labelStage st req = (st', JS.Normal (Some path')) ->
  path' = normalizePath (originalUrl req) (extraMasks options).
Proof.
  unfold labelStage.
  destruct (String.eqb (originalUrl req) (metricsPath options));
    [discriminate|].
  cbn zeta. cbn [sampleCount isAllowedRoutesInitialized].
  destruct (negb (isSampled (advance (sampleCount st)))); [discriminate|].
  destruct (negb (collectAnyPaths options)).
  - destruct (negb (isAllowedRoutesInitialized st)).
    + destruct (initializeAllowedRoutes _ req) as [st1 [u|err]];
        [|discriminate].
      destruct (negb (isPathAllowed _ _ _)); [discriminate|].
      intros H; inversion H; reflexivity.
    + destruct (negb (isPathAllowed _ _ _)); [discriminate|].
      intros H; inversion H; reflexivity.
  - intros H; inversion H; reflexivity.
Qed.

(** The normaliser on a path with no custom mask: segment by segment. *)

Lemma string_app_assoc (a b c : string) : (a ++ b) ++ c = a ++ (b ++ c).
Proof. induction a as [|x a IH]; cbn; [reflexivity | now rewrite IH]. Qed.

Lemma splitTokens_nonempty ts : splitTokens ts <> [].
Proof.
  destruct ts as [|t rest]; cbn [splitTokens]; [discriminate|].
  destruct (isSlashToken t); [discriminate|].
  destruct (splitTokens rest); discriminate.
Qed.

Lemma splitTokens_segment (s : string) (rest : list token) :
  hasChar "/" s = false ->
  splitTokens (tokensOf s ++ rest)%list
  = match splitTokens rest with
    | seg :: segs => (tokensOf s ++ seg)%list :: segs
    | [] => [tokensOf s]
    end.
Proof.
  induction s as [|c s IH]; intros Hfree.
  - cbn [tokensOf List.app].
    destruct (splitTokens rest) eqn:E; [now apply splitTokens_nonempty in E|].
    reflexivity.
  - cbn [hasChar] in Hfree. apply orb_false_iff in Hfree as [Hc Hfree].
    cbn [tokensOf List.app splitTokens isSlashToken].
    rewrite (Ascii.eqb_sym c "/"), Hc, (IH Hfree).
    destruct (splitTokens rest) eqn:E; [now apply splitTokens_nonempty in E|].
    reflexivity.
Qed.

Lemma tokensOf_app (a b : string) :
  tokensOf (a ++ b) = (tokensOf a ++ tokensOf b)%list.
Proof.
  induction a as [|c a IH]; cbn [append tokensOf List.app];
    [reflexivity | now rewrite IH].
Qed.

Lemma splitTokens_concat (segs : list string) :
  segs <> [] ->
  (forall s, In s segs -> hasChar "/" s = false) ->
  splitTokens (tokensOf (String.concat "/" segs)) = map tokensOf segs.
Proof.
  induction segs as [|s segs IH]; intros Hne Hfree; [contradiction|].
  destruct segs as [|s' segs].
  - cbn [String.concat map].
    rewrite <- (app_nil_r (tokensOf s)), splitTokens_segment
      by (apply Hfree; now left).
    cbn [splitTokens]. now rewrite app_nil_r.
  - change (String.concat "/" (s :: s' :: segs))
      with (s ++ String "/" (String.concat "/" (s' :: segs))).
    rewrite tokensOf_app, splitTokens_segment by (apply Hfree; now left).
    cbn [tokensOf splitTokens isSlashToken].
    change (Ascii.eqb "/" "/") with true. cbn iota.
    rewrite IH by (try discriminate; intros x Hx; apply Hfree; now right).
    now rewrite app_nil_r.
Qed.

Lemma maskNumeric_tokensOf (s : string) :
  maskNumeric (tokensOf s)
  = if isNumericSegment s then [None] else tokensOf s.
Proof.
  assert (Hall : forallb isDigitToken (tokensOf s)
                 = forallb isDigit (list_ascii_of_string s)).
  { induction s as [|c s IH]; [reflexivity|].
    cbn [tokensOf list_ascii_of_string forallb isDigitToken].
    now rewrite IH. }
  unfold maskNumeric, isNumericSegment.
  destruct s as [|c s]; [reflexivity|].
  rewrite <- Hall. reflexivity.
Qed.

Lemma render_tokensOf (s : string) : render (tokensOf s) = s.
Proof.
  induction s as [|c s IH]; cbn [tokensOf render]; [reflexivity | now rewrite IH].
Qed.

Lemma render_app (a b : list token) :
  render (a ++ b)%list = render a ++ render b.
Proof.
  induction a as [|[c|] a IH]; cbn [List.app render append].
  - reflexivity.
  - now rewrite IH.
  - now rewrite IH, string_app_assoc.
Qed.

Lemma render_joinTokens (segs : list (list token)) :
  render (joinTokens segs) = String.concat "/" (map render segs).
Proof.
  induction segs as [|seg segs IH]; [reflexivity|].
  destruct segs as [|seg' segs]; [reflexivity|].
  change (joinTokens (seg :: seg' :: segs))
    with (seg ++ Some "/"%char :: joinTokens (seg' :: segs))%list.
  rewrite render_app. cbn [render]. rewrite IH. reflexivity.
Qed.

Lemma specNormalizePath_no_masks (segs : list string) :
  segs <> [] ->
  (forall s, In s segs -> hasChar "/" s = false) ->
  specNormalizePath (String.concat "/" segs) []
  = String.concat "/"
      (map (fun s => if isNumericSegment s then placeholder else s) segs).
Proof.
  intros Hne Hfree. unfold specNormalizePath. cbn [fold_left].
  rewrite splitTokens_concat, render_joinTokens, !map_map by assumption.
  f_equal. apply map_ext. intros s. rewrite maskNumeric_tokensOf.
  destruct (isNumericSegment s); [reflexivity | apply render_tokensOf].
Qed.

(** C3 (as the code has it): the canonical path that becomes the route
    label is [normalizePath] of the raw URL under the user-supplied masks
    alone, in configured order; the built-in route-parameter mask is
    appended, after all user masks, only when the discovered route patterns
    are normalised for the catalog.  Under the normaliser as the spec
    describes it, a raw path with no custom masks has each of its numeric
    segments replaced by the placeholder, so /users/42 becomes /users/#val;
    the pattern /users/:id is stored in the catalog as /users/#val, and the
    request path /users/:id with no custom masks stays as it is. *)
Theorem C3_builtin_mask_is_for_route_patterns_only :
  (forall st req st' path',
      labelStage st req = (st', JS.Normal (Some path')) ->
      path' = normalizePath (originalUrl req) (extraMasks options)) /\
  (forall st req res time st' path',
      labelStage st req = (st', JS.Normal (Some path')) ->
      transformLabels options = None ->
      recordResponse st req res time
      = observe
          (assembledLabels
             (normalizePath (originalUrl req) (extraMasks options)) req res)
          req res time st') /\
  (forall path' req res,
      hd_error (assembledLabels path' req res) = Some ("route", path')) /\
  (forall st req routes,
      extractRoutes (req_app req) = JS.Normal routes ->
      allowedRoutes (fst (initializeAllowedRoutes st req)) =
      (allowedRoutes st
       ++ map (fun route =>
                 mkEntry (method route)
                   (normalizePath (path route)
                      (extraMasks options ++ [expressPathParameterRegex])))
              routes)%list) /\
  (forall segs,
      segs <> [] ->
      (forall s, In s segs -> hasChar "/" s = false) ->
      specNormalizePath (String.concat "/" segs) []
      = String.concat "/"
          (map (fun s => if isNumericSegment s then placeholder else s)
             segs)) /\
  specNormalizePath "/users/42" [] = "/users/#val" /\
  specNormalizePath "/users/:id" ([] ++ [expressPathParameterRegex])
  = "/users/#val" /\
  specNormalizePath "/users/:id" [] = "/users/:id".
Proof.
  split; [|split; [|split; [|split; [|split; [|split; [|split]]]]]].
  - apply labelStage_path.
  - intros st req res time st' path' Hstage Hnone.
    rewrite recordResponse_stages, Hstage, assembleAndObserve_labels, Hnone.
    now rewrite (labelStage_path st req st' path' Hstage).
  - reflexivity.
  - intros st req routes Hx. unfold initializeAllowedRoutes. rewrite Hx.
    reflexivity.
  - apply specNormalizePath_no_masks.
  - vm_compute. reflexivity.
  - vm_compute. reflexivity.
  - vm_compute. reflexivity.
Qed.

(** *** Route extraction *)

Lemma isLogged_In (routeLogged : list string) (m : string) :
  isLogged routeLogged m = true <-> In m routeLogged.
Proof.
  unfold isLogged. rewrite existsb_exists. split.
  - intros [x [Hin Heq]]. apply String.eqb_eq in Heq. now subst.
  - intros H. exists m. split; [exact H | apply String.eqb_refl].
Qed.

Lemma handlerVerb_nonEmpty h v : handlerVerb h = Some v -> JS.nonEmpty v = true.
Proof.
  unfold handlerVerb. destruct (h_method h) as [[|c m]|]; cbn; try discriminate.
  intros H; inversion H; reflexivity.
Qed.

Lemma routeEntries_cons stack rt routeLogged h rest :
  routeEntries stack rt routeLogged (h :: rest) =
  match handlerVerb h with
  | Some m =>
      if isLogged routeLogged m
      then routeEntries stack rt routeLogged rest
      else mkEntry m (resolve (JS.joinTruthy
                                 [routerPath stack; r_path rt; h_path h]))
           :: routeEntries stack rt (m :: routeLogged) rest
  | None => routeEntries stack rt routeLogged rest
  end.
Proof.
  cbn [routeEntries]. fold (handlerVerb h).
  destruct (handlerVerb h) as [m|] eqn:Hv; [|reflexivity].
  rewrite (handlerVerb_nonEmpty h m Hv), andb_true_r.
  destruct (isLogged routeLogged m); reflexivity.
Qed.

Lemma routeEntries_spec stack rt : forall handlers routeLogged,
  NoDup (map method (routeEntries stack rt routeLogged handlers)) /\
  (forall e, In e (routeEntries stack rt routeLogged handlers) ->
             ~ In (method e) routeLogged) /\
  (forall e, In e (routeEntries stack rt routeLogged handlers) ->
     exists before h after,
       handlers = (before ++ h :: after)%list /\
       handlerVerb h = Some (method e) /\
       path e = resolve (JS.joinTruthy
                           [routerPath stack; r_path rt; h_path h]) /\
       forall h', In h' before -> handlerVerb h' <> Some (method e)) /\
  (forall h v, In h handlers -> handlerVerb h = Some v ->
     In v (map method (routeEntries stack rt routeLogged handlers)) \/
     In v routeLogged).
Proof.
  induction handlers as [|h rest IH]; intros routeLogged.
  - cbn. repeat split; try constructor; intros; contradiction.
  - rewrite routeEntries_cons.
    destruct (handlerVerb h) as [m|] eqn:Hv.
    + destruct (isLogged routeLogged m) eqn:Hl.
      * apply isLogged_In in Hl.
        destruct (IH routeLogged) as [Hnd [Hfresh [Hfrom Hall]]].
        repeat split; auto.
        -- intros e He. destruct (Hfrom e He)
             as [before [h0 [after [Heq [Hv0 [Hp Hfirst]]]]]].
           exists (h :: before), h0, after. rewrite Heq.
           repeat split; auto.
           intros h' [<-|Hin]; [|auto].
           rewrite Hv. intros E. inversion E; subst.
           exact (Hfresh e He Hl).
        -- intros h' v [<-|Hin] Hv'; [|eauto].
           right. rewrite Hv in Hv'. inversion Hv'; subst. exact Hl.
      * assert (Hnl : ~ In m routeLogged).
        { intros Hin. apply isLogged_In in Hin. congruence. }
        destruct (IH (m :: routeLogged)) as [Hnd [Hfresh [Hfrom Hall]]].
        repeat split.
        -- cbn [map method]. constructor; [|exact Hnd].
           intros Hin. apply in_map_iff in Hin as [e [Hm He]].
           apply (Hfresh e He). left. auto.
        -- intros e [<-|He]; [exact Hnl|].
           intros Hin. apply (Hfresh e He). right. exact Hin.
        -- intros e [<-|He].
           ++ exists [], h, rest. cbn. repeat split; auto.
           ++ destruct (Hfrom e He)
                as [before [h0 [after [Heq [Hv0 [Hp Hfirst]]]]]].
              exists (h :: before), h0, after. rewrite Heq.
              repeat split; auto.
              intros h' [<-|Hin]; [|auto].
              rewrite Hv. intros E. inversion E; subst.
              apply (Hfresh e He). left. reflexivity.
        -- intros h' v [<-|Hin] Hv'.
           ++ left. rewrite Hv in Hv'. inversion Hv'; subst. left. reflexivity.
           ++ destruct (Hall h' v Hin Hv') as [H|[H|H]].
              ** left. right. exact H.
              ** left. left. exact H.
              ** right. exact H.
    + destruct (IH routeLogged) as [Hnd [Hfresh [Hfrom Hall]]].
      repeat split; auto.
      * intros e He. destruct (Hfrom e He)
          as [before [h0 [after [Heq [Hv0 [Hp Hfirst]]]]]].
        exists (h :: before), h0, after. rewrite Heq.
        repeat split; auto.
        intros h' [<-|Hin]; [congruence|auto].
      * intros h' v [<-|Hin] Hv'; [congruence|eauto].
Qed.

(** C7: for a terminal route node, extraction yields at most one entry per
    upper-cased verb (a verb already recorded for the node adds nothing),
    every verb handled on the node has its entry, and each entry comes
    from the first handler with its verb, its path being the three
    fragments routerPath, route path and handler path - the empty and
    absent ones dropped - concatenated in that order and then resolved. *)
Theorem C7_one_entry_per_verb_with_resolved_path stack rt :
  route stack = Some rt ->
  NoDup (map method (stackEntries stack)) /\
  (forall e, In e (stackEntries stack) ->
     exists before h after,
       r_stack rt = (before ++ h :: after)%list /\
       handlerVerb h = Some (method e) /\
       path e = resolve (String.concat ""
                  (map (fun f => match f with Some s => s | None => "" end)
                     (filter JS.truthy
                        [routerPath stack; r_path rt; h_path h]))) /\
       forall h', In h' before -> handlerVerb h' <> Some (method e)) /\
  (forall h v, In h (r_stack rt) -> handlerVerb h = Some v ->
               In v (map method (stackEntries stack))) /\
  (forall h m, h_method h = Some m ->
               handlerVerb h
               = if JS.nonEmpty m then Some (JS.toUpperCase m) else None).
Proof.
  intros Hroute. unfold stackEntries. rewrite Hroute.
  destruct (routeEntries_spec stack rt (r_stack rt) [])
    as [Hnd [_ [Hfrom Hall]]].
  repeat split; auto.
  - intros h v Hin Hv. destruct (Hall h v Hin Hv) as [H|[]]. exact H.
  - intros h m Hm. unfold handlerVerb. rewrite Hm. destruct m; reflexivity.
Qed.

(** *** The sampling gate at the three rates *)

Lemma in_counterValues (c : Z) : (0 <= c <= 100)%Z -> In c counterValues.
Proof.
  intros H. unfold counterValues. apply in_map_iff.
  exists (Z.to_nat c). split; [lia|]. apply in_seq. lia.
Qed.

Lemma isSampled_at_rate (rate : float) (expected : Z -> bool) :
  forallb (fun c =>
             Bool.eqb
               (PrimFloat.leb
                  (PrimFloat.div (JS.numberOfZ c) (JS.numberOfZ samplePercent))
                  rate)
               (expected c))
          counterValues = true ->
  sampleRate options = rate ->
  forall c, (0 <= c <= 100)%Z -> isSampled c = expected c.
Proof.
  intros Hall Hrate c Hc. unfold isSampled. rewrite Hrate.
  rewrite forallb_forall in Hall.
  apply Bool.eqb_prop. apply Hall. now apply in_counterValues.
Qed.

Lemma isSampled_rate_one :
  sampleRate options = 1%float ->
  forall c, (0 <= c <= 100)%Z -> isSampled c = true.
Proof.
  apply (isSampled_at_rate 1%float (fun _ => true)).
  vm_compute. reflexivity.
Qed.

Lemma isSampled_rate_zero :
  sampleRate options = 0%float ->
  forall c, (0 <= c <= 100)%Z -> isSampled c = (c =? 0)%Z.
Proof.
  apply (isSampled_at_rate 0%float (fun c => (c =? 0)%Z)).
  vm_compute. reflexivity.
Qed.

Lemma isSampled_rate_half :
  sampleRate options = 0.5%float ->
  forall c, (0 <= c <= 100)%Z -> isSampled c = (c <=? 50)%Z.
Proof.
  apply (isSampled_at_rate 0.5%float (fun c => (c <=? 50)%Z)).
  vm_compute. reflexivity.
Qed.

Lemma serveAll_sampleCount_mod rs : forall st,
  (0 <= sampleCount st <= 100)%Z ->
  sampleCount (serveAll st rs)
  = ((sampleCount st + Z.of_nat (List.length (filter evaluated rs))) mod 101)%Z.
Proof.
  unfold serveAll.
  induction rs as [|r rs IH]; intros st Hst; cbn [fold_left filter].
  - cbn. rewrite Z.add_0_r, Z.mod_small; lia.
  - rewrite (IH _ (serve_sampleCount_range st r Hst)).
    destruct r as [[req res] time]. unfold serve, evaluated. cbn [fst].
    rewrite recordResponse_sampleCount.
    destruct (String.eqb (originalUrl req) (metricsPath options));
      cbn [negb]; [reflexivity|].
    rewrite (advance_mod _ Hst). cbn [List.length].
    rewrite Nat2Z.inj_succ, Zplus_mod_idemp_l. f_equal. lia.
Qed.

(** X2: the counter after any sequence of requests is the number of
    evaluated requests (those not for the scrape path) modulo 101. *)
Theorem sampleCount_counts_evaluations_mod_101 (rs : list Served) :
  sampleCount (serveAll initialState rs)
  = (Z.of_nat (List.length (filter evaluated rs)) mod 101)%Z.
Proof.
  rewrite serveAll_sampleCount_mod; [reflexivity | cbn; lia].
Qed.

(** X1: the gate faced by the request that follows any sequence of
    requests: at rate 1.0 it admits; at rate 0.0 it admits exactly when the
    counter wraps to 0; at rate 0.5 it admits exactly when the advanced
    counter is at most 50. *)
Theorem gate_after_any_requests (rs : list Served) :
  (sampleRate options = 1%float ->
   isSampled (advance (sampleCount (serveAll initialState rs))) = true) /\
  (sampleRate options = 0%float ->
   isSampled (advance (sampleCount (serveAll initialState rs)))
   = (sampleCount (serveAll initialState rs) =? 100)%Z) /\
  (sampleRate options = 0.5%float ->
   isSampled (advance (sampleCount (serveAll initialState rs)))
   = (advance (sampleCount (serveAll initialState rs)) <=? 50)%Z).
Proof.
  assert (Hc : (0 <= sampleCount (serveAll initialState rs) <= 100)%Z).
  { apply serveAll_sampleCount_range. cbn. lia. }
  pose proof (advance_range _ Hc) as Ha.
  repeat split; intros Hrate.
  - now apply isSampled_rate_one.
  - rewrite (isSampled_rate_zero Hrate _ Ha).
    unfold advance, samplePercent.
    destruct (sampleCount (serveAll initialState rs) =? 100)%Z eqn:E;
      [reflexivity|].
    apply Z.eqb_neq. lia.
  - now apply isSampled_rate_half.
Qed.

Lemma labelStage_gate st req :
  collectAnyPaths options = true ->
  originalUrl req <> metricsPath options ->
  labelStage st req
  = ({| sampleCount := advance (sampleCount st);
        isAllowedRoutesInitialized := isAllowedRoutesInitialized st;
        allowedRoutes := allowedRoutes st;
        metricCalls := metricCalls st |},
     JS.Normal
       (if isSampled (advance (sampleCount st))
        then Some (normalizePath (originalUrl req) (extraMasks options))
        else None)).
Proof.
  intros Hany Hurl. unfold labelStage.
  apply String.eqb_neq in Hurl. rewrite Hurl. cbn zeta. cbn [sampleCount].
  rewrite Hany. cbn [negb].
  destruct (isSampled (advance (sampleCount st))); reflexivity.
Qed.

Lemma recordResponse_rejected st req res time :
  originalUrl req <> metricsPath options ->
  isSampled (advance (sampleCount st)) = false ->
  recordResponse st req res time
  = ({| sampleCount := advance (sampleCount st);
        isAllowedRoutesInitialized := isAllowedRoutesInitialized st;
        allowedRoutes := allowedRoutes st;
        metricCalls := metricCalls st |},
     JS.Normal tt).
Proof.
  intros Hurl Hs. unfold recordResponse.
  apply String.eqb_neq in Hurl. rewrite Hurl. cbn zeta. cbn [sampleCount].
  rewrite Hs. reflexivity.
Qed.

(** C1 (as the code has it): every gate evaluation first advances the
    shared counter by the rule "100 goes to 0, anything else goes up by
    one" and then admits the request iff sampleCount / 100 <= sampleRate; a
    rejected request changes nothing but the counter.  From a fresh
    middleware the evaluation that follows n earlier ones meets the counter
    (n + 1) mod 101, so the counter runs through the 101 values 0 to 100.
    With sampleRate 1.0 every evaluation is admitted; with sampleRate 0.0
    exactly the evaluations whose advanced counter is 0 are admitted, one
    in every 101; with sampleRate 0.5 exactly those whose advanced counter
    lies in 0..50 are admitted and those with 51..100 are rejected, cycling
    forever. *)
Theorem C1_gate_advances_then_admits_over_a_101_cycle :
  (forall c,
      advance c = (if (c =? 100)%Z then 0 else c + 1)%Z /\
      isSampled c
      = PrimFloat.leb (PrimFloat.div (JS.numberOfZ c) (JS.numberOfZ 100))
          (sampleRate options)) /\
  (forall st req res time,
      originalUrl req <> metricsPath options ->
      sampleCount (fst (recordResponse st req res time))
      = advance (sampleCount st) /\
      (isSampled (advance (sampleCount st)) = false ->
       recordResponse st req res time
       = ({| sampleCount := advance (sampleCount st);
             isAllowedRoutesInitialized := isAllowedRoutesInitialized st;
             allowedRoutes := allowedRoutes st;
             metricCalls := metricCalls st |},
          JS.Normal tt)) /\
      (collectAnyPaths options = true ->
       labelStage st req
       = ({| sampleCount := advance (sampleCount st);
             isAllowedRoutesInitialized := isAllowedRoutesInitialized st;
             allowedRoutes := allowedRoutes st;
             metricCalls := metricCalls st |},
          JS.Normal
            (if isSampled (advance (sampleCount st))
             then Some (normalizePath (originalUrl req) (extraMasks options))
             else None)))) /\
  (forall rs : list Served,
      advance (sampleCount (serveAll initialState rs))
      = ((Z.of_nat (List.length (filter evaluated rs)) + 1) mod 101)%Z) /\
  (sampleRate options = 1%float ->
   forall rs : list Served,
     isSampled (advance (sampleCount (serveAll initialState rs))) = true) /\
  (sampleRate options = 0%float ->
   forall rs : list Served,
     isSampled (advance (sampleCount (serveAll initialState rs)))
     = (advance (sampleCount (serveAll initialState rs)) =? 0)%Z) /\
  (sampleRate options = 0.5%float ->
   forall rs : list Served,
     isSampled (advance (sampleCount (serveAll initialState rs)))
     = (advance (sampleCount (serveAll initialState rs)) <=? 50)%Z).
Proof.
  assert (Hrange : forall rs : list Served,
             (0 <= sampleCount (serveAll initialState rs) <= 100)%Z).
  { intros rs. apply serveAll_sampleCount_range. cbn. lia. }
  split; [|split; [|split; [|split; [|split]]]].
  - intros c. split; reflexivity.
  - intros st req res time Hurl. split; [|split].
    + rewrite recordResponse_sampleCount.
      apply String.eqb_neq in Hurl. now rewrite Hurl.
    + now apply recordResponse_rejected.
    + intros Hany. now apply labelStage_gate.
  - intros rs. rewrite (advance_mod _ (Hrange rs)).
    rewrite serveAll_sampleCount_mod by (cbn; lia).
    cbn [sampleCount initialState]. rewrite Z.add_0_l.
    rewrite Zplus_mod_idemp_l. reflexivity.
  - intros Hrate rs. apply (isSampled_rate_one Hrate).
    apply advance_range, Hrange.
  - intros Hrate rs. apply (isSampled_rate_zero Hrate).
    apply advance_range, Hrange.
  - intros Hrate rs. apply (isSampled_rate_half Hrate).
    apply advance_range, Hrange.
Qed.

(** *** The label names handed to the metrics *)

Lemma uniqueInOrder_spec xs : forall seen,
  NoDup (uniqueInOrder seen xs) /\
  (forall x, In x (uniqueInOrder seen xs) <-> In x xs /\ ~ In x seen).
Proof.
  induction xs as [|x rest IH]; intros seen; cbn [uniqueInOrder].
  - split; [constructor|]. intros x; cbn; tauto.
  - destruct (existsb (String.eqb x) seen) eqn:E.
    + apply existsb_exists in E as [y [Hy Heq]].
      apply String.eqb_eq in Heq. subst y.
      destruct (IH seen) as [Hnd Hin]. split; [exact Hnd|].
      intros z. rewrite Hin. cbn. split; [tauto|].
      intros [[<-|H] Hn]; [contradiction|auto].
    + assert (Hx : ~ In x seen).
      { intros Hin.
        assert (existsb (String.eqb x) seen = true) as Ht; [|congruence].
        apply existsb_exists. exists x. split; [exact Hin|].
        apply String.eqb_refl. }
      destruct (IH (x :: seen)) as [Hnd Hin]. split.
      * constructor; [|exact Hnd]. rewrite Hin. cbn. tauto.
      * intros z. cbn [In]. rewrite Hin. cbn [In].
        destruct (String.string_dec x z) as [->|Hne]; [tauto|].
        tauto.
Qed.

Lemma uniqueInOrder_fresh xs : forall seen,
  NoDup xs -> (forall x, In x xs -> ~ In x seen) ->
  uniqueInOrder seen xs = xs.
Proof.
  induction xs as [|x rest IH]; intros seen Hnd Hfresh; [reflexivity|].
  cbn [uniqueInOrder]. inversion Hnd as [|? ? Hx Hrest]; subst.
  destruct (existsb (String.eqb x) seen) eqn:E.
  - apply existsb_exists in E as [y [Hy Heq]].
    apply String.eqb_eq in Heq. subst y.
    destruct (Hfresh x (or_introl eq_refl) Hy).
  - f_equal. apply IH; [exact Hrest|].
    intros z Hz [<-|Hs]; [contradiction|].
    exact (Hfresh z (or_intror Hz) Hs).
Qed.

(** X3: the label names the metrics are created with never repeat a
    name, always start with route, method, status in that order, continue
    with the user's names in order of first occurrence - none of them one
    of the three - and hold exactly the three names and the user's; a
    user's list that is already free of repeats and of the three names is
    kept as it is behind them. *)
Theorem customLabels_unique_and_led_by_the_original_three
  (userLabels : list string) :
  NoDup (customLabels userLabels) /\
  customLabels userLabels
  = (originalLabels
     ++ uniqueInOrder (rev originalLabels) userLabels)%list /\
  (forall x, In x (uniqueInOrder (rev originalLabels) userLabels) ->
             In x userLabels /\ ~ In x originalLabels) /\
  (forall x, In x (customLabels userLabels) <->
             In x originalLabels \/ In x userLabels) /\
  (NoDup userLabels ->
   (forall x, In x userLabels -> ~ In x originalLabels) ->
   customLabels userLabels = (originalLabels ++ userLabels)%list).
Proof.
  assert (Hshape : customLabels userLabels
                   = (originalLabels
                      ++ uniqueInOrder (rev originalLabels) userLabels)%list)
    by reflexivity.
  split; [apply uniqueInOrder_spec|].
  split; [exact Hshape|].
  split; [|split].
  - intros x Hin.
    apply (proj2 (uniqueInOrder_spec userLabels (rev originalLabels))) in Hin.
    destruct Hin as [Hu Hn]. split; [exact Hu|].
    intros Ho. apply Hn. apply -> in_rev. exact Ho.
  - intros x. unfold customLabels.
    rewrite (proj2 (uniqueInOrder_spec _ [])). rewrite in_app_iff.
    cbn [In]. tauto.
  - intros Hnd Hfresh. rewrite Hshape. f_equal.
    apply uniqueInOrder_fresh; [exact Hnd|].
    intros x Hx Hr. apply (Hfresh x Hx). apply in_rev. exact Hr.
Qed.

(** *** Mount prefixes *)

Lemma prefix_app (pat rest : string) : String.prefix pat (pat ++ rest) = true.
Proof.
  induction pat as [|c pat IH]; cbn.
  - destruct rest; reflexivity.
  - destruct (ascii_dec c c); [exact IH | contradiction].
Qed.

Lemma drop_app (pat rest : string) :
  JS.drop (String.length pat) (pat ++ rest) = rest.
Proof. induction pat as [|c pat IH]; cbn; [reflexivity | exact IH]. Qed.

Lemma replaceFirst_here (pat rep rest : string) :
  JS.replaceFirst pat rep (pat ++ rest) = rep ++ rest.
Proof.
  destruct (pat ++ rest) eqn:E; cbn [JS.replaceFirst];
    rewrite <- E, prefix_app, drop_app; reflexivity.
Qed.

Lemma replaceFirst_after (c : ascii) (pat rep before rest : string) :
  hasChar c before = false ->
  JS.replaceFirst (String c pat) rep (before ++ String c pat ++ rest)
  = before ++ rep ++ rest.
Proof.
  induction before as [|d before IH]; intros Hfree.
  - apply (replaceFirst_here (String c pat) rep rest).
  - cbn [hasChar] in Hfree. apply orb_false_iff in Hfree as [Hd Hfree].
    cbn [append JS.replaceFirst String.prefix].
    destruct (ascii_dec c d) as [->|_].
    + rewrite Ascii.eqb_refl in Hd. discriminate.
    + f_equal. apply IH, Hfree.
Qed.

Lemma hasChar_app (c : ascii) (a b : string) :
  hasChar c (a ++ b) = hasChar c a || hasChar c b.
Proof.
  induction a as [|d a IH]; cbn; [reflexivity|].
  rewrite IH. apply orb_assoc.
Qed.

Lemma hasChar_escapeSlashes (c : ascii) (s : string) :
  Ascii.eqb c "\" = false ->
  hasChar c (escapeSlashes s) = hasChar c s.
Proof.
  intros Hc. induction s as [|d s IH]; [reflexivity|].
  cbn [escapeSlashes]. destruct (Ascii.eqb d "/") eqn:Ed.
  - apply Ascii.eqb_eq in Ed. subst d. cbn [hasChar]. rewrite Hc, IH.
    reflexivity.
  - cbn [hasChar]. rewrite IH. reflexivity.
Qed.

Lemma unescapeSlashes_cons (c : ascii) (s : string) :
  Ascii.eqb c "\" = false ->
  JS.unescapeSlashes (String c s) = String c (JS.unescapeSlashes s).
Proof.
  intros Hc. destruct s as [|d s]; [reflexivity|].
  cbn [JS.unescapeSlashes]. rewrite Hc.
  destruct d as [[] [] [] [] [] [] [] []]; reflexivity.
Qed.

Lemma unescapeSlashes_pair (s : string) :
  JS.unescapeSlashes (String "\" (String "/" s))
  = String "/" (JS.unescapeSlashes s).
Proof. reflexivity. Qed.

Lemma unescapeSlashes_escapeSlashes (s rest : string) :
  hasChar "\" s = false ->
  JS.unescapeSlashes (escapeSlashes s ++ rest)
  = s ++ JS.unescapeSlashes rest.
Proof.
  induction s as [|c s IH]; intros Hfree; [reflexivity|].
  cbn [hasChar] in Hfree. apply orb_false_iff in Hfree as [Hc Hfree].
  rewrite Ascii.eqb_sym in Hc.
  cbn [escapeSlashes]. destruct (Ascii.eqb c "/") eqn:Ec.
  - apply Ascii.eqb_eq in Ec. subst c.
    cbn [append]. rewrite unescapeSlashes_pair, (IH Hfree). reflexivity.
  - cbn [append]. rewrite (unescapeSlashes_cons _ _ Hc), (IH Hfree).
    reflexivity.
Qed.

Lemma replaceFirst_absent (c : ascii) (pat rep before rest : string) :
  hasChar c before = false ->
  JS.replaceFirst (String c pat) rep (before ++ rest)
  = before ++ JS.replaceFirst (String c pat) rep rest.
Proof.
  induction before as [|d before IH]; intros Hfree; [reflexivity|].
  cbn [hasChar] in Hfree. apply orb_false_iff in Hfree as [Hd Hfree].
  cbn [append JS.replaceFirst String.prefix].
  destruct (ascii_dec c d) as [->|_].
  - rewrite Ascii.eqb_refl in Hd. discriminate.
  - f_equal. apply IH, Hfree.
Qed.

Lemma string_app_nil (s : string) : s ++ "" = s.
Proof. induction s as [|c s IH]; cbn; [reflexivity | now rewrite IH]. Qed.

Lemma plain_hasChar (c : ascii) (s : string) :
  isPlainChar c = false ->
  forallb isPlainChar (list_ascii_of_string s) = true ->
  hasChar c s = false.
Proof.
  intros Hc. induction s as [|d s IH]; [reflexivity|].
  cbn [list_ascii_of_string forallb hasChar]. intros H.
  apply andb_true_iff in H as [Hd Hs]. rewrite (IH Hs), orb_false_r.
  destruct (Ascii.eqb c d) eqn:E; [|reflexivity].
  apply Ascii.eqb_eq in E. subst d. congruence.
Qed.

Lemma mountFragment_hasChar (c : ascii) (mountPath : string) :
  isPlainChar c = false ->
  forallb isPlainChar (list_ascii_of_string mountPath) = true ->
  hasChar c (mountFragment mountPath) = false.
Proof.
  intros Hc Hplain. unfold mountFragment.
  rewrite hasChar_app, (plain_hasChar c mountPath Hc Hplain).
  destruct (endsWithSlash mountPath); [reflexivity|].
  cbn [hasChar orb]. rewrite orb_false_r.
  destruct (Ascii.eqb c "/") eqn:E; [|reflexivity].
  apply Ascii.eqb_eq in E. subst c. discriminate.
Qed.

Lemma getPathFromRegex_mountPattern (mountPath pattern : string) :
  mountPattern false mountPath = Some pattern ->
  getPathFromRegex pattern = mountFragment mountPath.
Proof.
  unfold mountPattern.
  destruct (forallb isPlainChar (list_ascii_of_string mountPath)) eqn:Hplain;
    [|discriminate].
  intros [= <-]. unfold getPathFromRegex.
  set (escaped := escapeSlashes (mountFragment mountPath)).
  change (String "/" (String "^" (escaped ++ "?(?=\/|$)/i")))
    with ("/^" ++ (escaped ++ String "?" "(?=\/|$)/i" ++ "")).
  rewrite (replaceFirst_here "/^" ""). cbn [append].
  pose proof (replaceFirst_after "?" "(?=\/|$)/i" "" escaped "") as Hstrip.
  cbn [append] in Hstrip. rewrite Hstrip; subst escaped.
  - cbn [append].
    rewrite unescapeSlashes_escapeSlashes
      by (apply mountFragment_hasChar; [reflexivity | exact Hplain]).
    apply string_app_nil.
  - rewrite hasChar_escapeSlashes by reflexivity.
    apply mountFragment_hasChar; [reflexivity | exact Hplain].
Qed.

Lemma getPathFromRegex_caseSensitive (mountPath pattern : string) :
  mountPattern true mountPath = Some pattern ->
  getPathFromRegex pattern = mountFragment mountPath ++ "?(?=/|$)/".
Proof.
  unfold mountPattern.
  destruct (forallb isPlainChar (list_ascii_of_string mountPath)) eqn:Hplain;
    [|discriminate].
  intros [= <-]. unfold getPathFromRegex.
  set (escaped := escapeSlashes (mountFragment mountPath)).
  change (String "/" (String "^" (escaped ++ "?(?=\/|$)/")))
    with ("/^" ++ (escaped ++ "?(?=\/|$)/")).
  rewrite (replaceFirst_here "/^" ""). cbn [append].
  rewrite (replaceFirst_absent "?" "(?=\/|$)/i" ""); subst escaped.
  - change (JS.replaceFirst "?(?=\/|$)/i" "" "?(?=\/|$)/") with "?(?=\/|$)/".
    rewrite unescapeSlashes_escapeSlashes
      by (apply mountFragment_hasChar; [reflexivity | exact Hplain]).
    reflexivity.
  - rewrite hasChar_escapeSlashes by reflexivity.
    apply mountFragment_hasChar; [reflexivity | exact Hplain].
Qed.

(** X4: for a router mounted with [use] at a path of plain characters
    (letters, digits, underscore, hyphen, slash), under the default
    case-insensitive routing, [getPathFromRegex] recovers from the printed
    mount pattern the mount path closed by one slash; [combineStacks] hands
    that fragment to every child of the mounting layer, and every route
    entry found on a child that carries no routerPath of its own has the
    path resolved from that fragment, the route's path and the handler's
    path.  Under case-sensitive routing the printed pattern has no [i]
    flag, the pattern's tail is not stripped, and the fragment is the mount
    path followed by the text ?(?=/|$)/ . *)
Theorem mounted_routes_carry_the_mount_prefix
  (mountPath pattern : string) (acc children : list Layer)
  (p : option string) (r : option Route) :
  mountPattern false mountPath = Some pattern ->
  getPathFromRegex pattern = mountFragment mountPath /\
  combineStacks acc (mkLayer p r (Some pattern) (Some children))
  = JS.Normal
      (acc ++ map (withRouterPath (mountFragment mountPath)) children)%list /\
  (forall child rt e,
      In child children ->
      routerPath child = None ->
      route child = Some rt ->
      In e (stackEntries (withRouterPath (mountFragment mountPath) child)) ->
      exists h, In h (r_stack rt) /\
                handlerVerb h = Some (method e) /\
                path e = resolve (JS.joinTruthy
                                    [Some (mountFragment mountPath);
                                     r_path rt; h_path h])) /\
  (forall sensitive,
      mountPattern true mountPath = Some sensitive ->
      getPathFromRegex sensitive = mountFragment mountPath ++ "?(?=/|$)/").
Proof.
  intros Hpattern.
  pose proof (getPathFromRegex_mountPattern mountPath pattern Hpattern)
    as Hpath.
  split; [exact Hpath|]. split; [|split].
  - unfold combineStacks. cbn [handleStack regexp]. rewrite Hpath. reflexivity.
  - intros [cp cr cre ch] rt e _ Hnone Hroute. cbn in Hnone, Hroute. subst.
    unfold stackEntries. cbn [withRouterPath route].
    intros He.
    destruct (routeEntries_spec
                (mkLayer (Some (mountFragment mountPath)) (Some rt) cre ch) rt
                (r_stack rt) []) as [_ [_ [Hfrom _]]].
    destruct (Hfrom e He) as [before [h [after [Heq [Hv [Hp _]]]]]].
    exists h. split; [rewrite Heq; apply in_or_app; right; left; reflexivity|].
    split; [exact Hv | exact Hp].
  - apply getPathFromRegex_caseSensitive.
Qed.

(** *** Flattening the stack *)

Lemma reduceStacks_readable stack : forall acc,
  existsb unreadableMount stack = false ->
  reduceStacks stack acc
  = JS.Normal (acc ++ flat_map expandLayer stack)%list.
Proof.
  induction stack as [|l stack IH]; intros acc Hok; cbn [reduceStacks flat_map].
  - now rewrite app_nil_r.
  - cbn [existsb] in Hok. apply orb_false_iff in Hok as [Hl Hok].
    unfold combineStacks, expandLayer, unreadableMount in *.
    destruct (handleStack l) as [children|]; [destruct (regexp l) as [re|]|];
      try discriminate; cbn [JS.bind]; rewrite (IH _ Hok), <- app_assoc;
      reflexivity.
Qed.

Lemma reduceStacks_unreadable stack : forall acc,
  existsb unreadableMount stack = true ->
  reduceStacks stack acc
  = JS.Throw "TypeError: Cannot read properties of undefined (reading 'toString')".
Proof.
  induction stack as [|l stack IH]; intros acc Hbad; [discriminate|].
  cbn [existsb] in Hbad. cbn [reduceStacks].
  unfold combineStacks, unreadableMount in *.
  destruct (handleStack l) as [children|]; [destruct (regexp l) as [re|]|];
    cbn [JS.bind]; try reflexivity; apply IH; exact Hbad.
Qed.

(** X5: flattening a stack fails exactly when some layer mounts a router
    but has no regexp to read the prefix from, whatever the layers before
    it; otherwise it keeps the order of the stack, replacing each mounting
    layer by its children (one level only) and keeping every other layer
    as it is - so a stack without mounted routers is returned unchanged. *)
Theorem reduceStacks_flattens_one_level_or_throws
  (stack acc : list Layer) :
  (existsb unreadableMount stack = false ->
   reduceStacks stack acc
   = JS.Normal (acc ++ flat_map expandLayer stack)%list) /\
  (existsb unreadableMount stack = true ->
   reduceStacks stack acc
   = JS.Throw "TypeError: Cannot read properties of undefined (reading 'toString')") /\
  ((forall l, In l stack -> handleStack l = None) ->
   reduceStacks stack acc = JS.Normal (acc ++ stack)%list).
Proof.
  split; [apply reduceStacks_readable|].
  split; [apply reduceStacks_unreadable|].
  intros Hflat.
  assert (Hok : existsb unreadableMount stack = false
                /\ flat_map expandLayer stack = stack).
  { induction stack as [|l stack IH]; [split; reflexivity|].
    destruct IH as [IH1 IH2]; [intros x Hx; apply Hflat; right; exact Hx|].
    pose proof (Hflat l (or_introl eq_refl)) as Hl.
    cbn [existsb flat_map]. rewrite IH1, IH2.
    unfold unreadableMount, expandLayer. rewrite Hl. split; reflexivity. }
  destruct Hok as [Hok Hsame].
  rewrite (reduceStacks_readable stack acc Hok), Hsame. reflexivity.
Qed.

(** *** How deep discovery looks *)

Lemma stackEntries_withoutHandleStack l :
  stackEntries (withoutHandleStack l) = stackEntries l.
Proof.
  destruct l as [p [rt|] re h]; unfold stackEntries; cbn [withoutHandleStack route];
    [|reflexivity].
  generalize (@nil string). induction (r_stack rt) as [|x rest IH]; intros logged;
    [reflexivity|].
  rewrite !routeEntries_cons. cbn [routerPath].
  destruct (handlerVerb x) as [m|]; [|apply IH].
  destruct (isLogged logged m); [apply IH|]. f_equal. apply IH.
Qed.

Lemma withRouterPath_withoutHandleStack p l :
  withRouterPath p (withoutHandleStack l)
  = withoutHandleStack (withRouterPath p l).
Proof. destruct l as [[own|] r re h]; reflexivity. Qed.

Lemma withoutHandleStack_leaf l :
  handleStack l = None -> withoutHandleStack l = l.
Proof. destruct l as [p r re h]; cbn. intros ->. reflexivity. Qed.

Lemma combineStacks_withoutGrandchildren acc l :
  combineStacks (map withoutHandleStack acc) (withoutGrandchildren l)
  = mapNormal (map withoutHandleStack) (combineStacks acc l).
Proof.
  destruct l as [p r [re|] [children|]]; unfold combineStacks;
    cbn [withoutGrandchildren handleStack regexp mapNormal];
    rewrite ?map_app, ?map_map; try reflexivity.
  f_equal. f_equal. apply map_ext. intros c.
  apply withRouterPath_withoutHandleStack.
Qed.

Lemma reduceStacks_withoutGrandchildren stack : forall acc,
  reduceStacks (map withoutGrandchildren stack) (map withoutHandleStack acc)
  = mapNormal (map withoutHandleStack) (reduceStacks stack acc).
Proof.
  induction stack as [|l stack IH]; intros acc; cbn [map reduceStacks];
    [reflexivity|].
  rewrite combineStacks_withoutGrandchildren.
  destruct (combineStacks acc l) as [acc'|err]; cbn [mapNormal JS.bind];
    [apply IH | reflexivity].
Qed.

Lemma flat_map_stackEntries_withoutHandleStack stacks :
  flat_map stackEntries (map withoutHandleStack stacks)
  = flat_map stackEntries stacks.
Proof.
  induction stacks as [|l stacks IH]; [reflexivity|].
  cbn [map flat_map]. now rewrite stackEntries_withoutHandleStack, IH.
Qed.

Lemma getStacks_withoutGrandchildren app :
  getStacks (appWithoutGrandchildren app)
  = mapNormal (map withoutHandleStack) (getStacks app).
Proof.
  pose proof (fun stack => reduceStacks_withoutGrandchildren stack [])
    as Hreduce. cbn [map] in Hreduce.
  destruct app as [routes _r st r]. unfold getStacks, appWithoutGrandchildren.
  cbn [app_routes app__router app_stack app_router option_map router_stack].
  destruct routes as [routes|].
  - cbn [mapNormal]. rewrite map_map. reflexivity.
  - destruct _r as [[[stack|]]|]; cbn [option_map router_stack];
      try apply Hreduce;
      (destruct st as [stack|]; cbn [option_map]; [apply Hreduce|]);
      (destruct r as [err| |[[stack|]]]; cbn [router_stack option_map];
       try reflexivity;
       rewrite Hreduce; destruct (reduceStacks stack []); reflexivity).
Qed.

(** X6: discovery looks one level below the top of the stack and no
    further: whatever the children of a mounted router mount themselves
    is never read, so routes of a router nested inside a mounted router
    are not discovered, and discovery succeeds or throws just the same
    without them. *)
Theorem discovery_ignores_routers_nested_in_mounted_routers (app : App) :
  extractRoutes (appWithoutGrandchildren app) = extractRoutes app.
Proof.
  unfold extractRoutes. rewrite getStacks_withoutGrandchildren.
  destruct (getStacks app) as [stacks|err]; cbn [mapNormal JS.bind];
    [|reflexivity].
  now rewrite flat_map_stackEntries_withoutHandleStack.
Qed.

(** *** The legacy route table *)

Lemma fold_left_append_snd (routes : list (string * list RouteHandler)) :
  forall acc,
    fold_left (fun acc kv => (acc ++ snd kv)%list) routes acc
    = (acc ++ List.concat (map snd routes))%list.
Proof.
  induction routes as [|kv routes IH]; intros acc; cbn [fold_left map List.concat].
  - now rewrite app_nil_r.
  - rewrite IH, app_assoc. reflexivity.
Qed.

Lemma stackEntries_express3 (legacy : RouteHandler) :
  stackEntries (mkLayer None (Some (mkRoute None [legacy])) None None)
  = express3Entry legacy.
Proof.
  unfold stackEntries, express3Entry. cbn [route r_stack].
  rewrite routeEntries_cons.
  cbn [isLogged existsb routerPath r_path routeEntries].
  destruct (handlerVerb legacy) as [verb|]; [|reflexivity].
  destruct (h_path legacy) as [[|c p]|]; reflexivity.
Qed.

(** X7: when the application exposes the legacy table [app.routes], it
    alone is read (whatever else the application carries), discovery
    cannot throw, and the result holds, verb by verb in key order, one
    entry per route with a non-empty method: its upper-cased method with
    the resolved path of the route; routes registered twice are listed
    twice. *)
Theorem legacy_route_table_is_listed_route_by_route
  (app : App) (routes : list (string * list RouteHandler)) :
  app_routes app = Some routes ->
  extractRoutes app
  = JS.Normal (flat_map express3Entry (List.concat (map snd routes))).
Proof.
  intros Hroutes. unfold extractRoutes, getStacks. rewrite Hroutes.
  cbn [JS.bind]. f_equal.
  rewrite (fold_left_append_snd routes []). cbn [List.app].
  induction (List.concat (map snd routes)) as [|legacy rest IH]; [reflexivity|].
  cbn [map flat_map]. now rewrite stackEntries_express3, IH.
Qed.

(** *** When the callback throws, and what it has recorded by then *)

Lemma labelStage_throw st req st' err :
  labelStage st req = (st', JS.Throw err) ->
  collectAnyPaths options = false /\
  isAllowedRoutesInitialized st = false /\
  extractRoutes (req_app req) = JS.Throw err.
Proof.
  unfold labelStage.
  destruct (String.eqb (originalUrl req) (metricsPath options));
    [discriminate|].
  cbn zeta. cbn [sampleCount isAllowedRoutesInitialized].
  destruct (negb (isSampled (advance (sampleCount st)))); [discriminate|].
  destruct (collectAnyPaths options); cbn [negb]; [discriminate|].
  destruct (isAllowedRoutesInitialized st); cbn [negb].
  - cbn [allowedRoutes]. destruct (negb (isPathAllowed _ _ _)); discriminate.
  - unfold initializeAllowedRoutes.
    destruct (extractRoutes (req_app req)) as [routes|e].
    + cbn [allowedRoutes]. destruct (negb (isPathAllowed _ _ _)); discriminate.
    + intros H; inversion H; auto.
Qed.

(** X8: the callback throws in three cases only - discovery throws
    (catalog enforcement on, catalog not yet initialised), the transform
    hook throws on the assembled labels, or a call on a metric throws (a
    label name that was not declared, or a histogram value that is not
    finite).  In the first two it has made no call on any metric; in the
    third it has made the planned calls up to and including the one that
    threw, and none after it.  With enforcement off, no transform hook and
    no planned call throwing it never throws. *)
Theorem recordResponse_throws_from_discovery_hook_or_metric
  st req res time :
  (forall err,
      snd (recordResponse st req res time) = JS.Throw err ->
      (metricCalls (fst (recordResponse st req res time)) = metricCalls st /\
       ((collectAnyPaths options = false /\
         isAllowedRoutesInitialized st = false /\
         extractRoutes (req_app req) = JS.Throw err) \/
        (exists hook,
            transformLabels options = Some hook /\
            hook (assembledLabels
                    (normalizePath (originalUrl req) (extraMasks options))
                    req res) req res = JS.Throw err))) \/
      (exists labels before c after,
          transformedLabels
            (normalizePath (originalUrl req) (extraMasks options)) req res
          = JS.Normal labels /\
          plannedCalls labels req res time = (before ++ c :: after)%list /\
          (forall b, In b before -> outcome b = JS.Normal tt) /\
          outcome c = JS.Throw err /\
          metricCalls (fst (recordResponse st req res time))
          = (metricCalls st ++ before ++ [c])%list)) /\
  (collectAnyPaths options = true ->
   transformLabels options = None ->
   (forall c,
       In c (plannedCalls
               (assembledLabels
                  (normalizePath (originalUrl req) (extraMasks options))
                  req res) req res time) ->
       outcome c = JS.Normal tt) ->
   snd (recordResponse st req res time) = JS.Normal tt).
Proof.
  rewrite recordResponse_stages.
  pose proof (labelStage_metricCalls st req) as Hm.
  destruct (labelStage st req) as [st' [[p|]|e]] eqn:Hstage; cbn [fst snd] in *.
  - rewrite assembleAndObserve_labels.
    rewrite (labelStage_path st req st' p Hstage).
    unfold transformedLabels.
    destruct (transformLabels options) as [hook|] eqn:Hhook.
    + destruct (hook _ req res) as [labels|e] eqn:Hcall; cbn [fst snd JS.bind];
        split.
      * intros err H. right. rewrite observe_makeCalls in *.
        destruct (makeCalls_log (plannedCalls labels req res time) st')
          as [[Hs _]|[before [c [after [e [Hplan [Hb [Hc [Hs Hlog]]]]]]]]];
          [congruence|].
        exists labels, before, c, after.
        assert (e = err) by congruence. subst e.
        rewrite Hlog, Hm. auto.
      * intros _ H; discriminate.
      * intros err H; inversion H; subst. left. split; [exact Hm|].
        right. exists hook. auto.
      * intros _ H; discriminate.
    + split.
      * intros err H. right. rewrite observe_makeCalls in *.
        destruct (makeCalls_log
                    (plannedCalls
                       (assembledLabels
                          (normalizePath (originalUrl req) (extraMasks options))
                          req res) req res time) st')
          as [[Hs _]|[before [c [after [e [Hplan [Hb [Hc [Hs Hlog]]]]]]]]];
          [congruence|].
        eexists _, before, c, after.
        assert (e = err) by congruence. subst e.
        rewrite Hlog, Hm. auto.
      * intros _ _ Hall. rewrite observe_makeCalls.
        destruct (makeCalls_log
                    (plannedCalls
                       (assembledLabels
                          (normalizePath (originalUrl req) (extraMasks options))
                          req res) req res time) st')
          as [[Hs _]|[before [c [after [e [Hplan [Hb [Hc [Hs Hlog]]]]]]]]];
          [exact Hs|].
        rewrite (Hall c) in Hc; [discriminate|].
        rewrite Hplan. apply in_or_app. right. now left.
  - split; [intros err H; discriminate | reflexivity].
  - split.
    + intros err H; inversion H; subst. left. split; [exact Hm|].
      left. exact (labelStage_throw st req st' err Hstage).
    + intros Hany _ _.
      destruct (labelStage_throw st req st' e Hstage) as [Hoff _]. congruence.
Qed.

(** *** What the metrics receive over a whole run *)

Lemma sizeCalls_tally histogram labels buckets header kind :
  tally kind (sizeCalls histogram labels buckets header) <= 1 /\
  (buckets = [] -> sizeCalls histogram labels buckets header = []).
Proof.
  unfold sizeCalls, tally.
  destruct buckets as [|b bs]; [split; [cbn; lia | reflexivity]|].
  split; [|discriminate].
  destruct header as [text|]; [|cbn; lia].
  destruct (JS.nonEmpty text); cbn [filter]; [|cbn; lia].
  destruct (kind _); cbn; lia.
Qed.

Lemma tally_app kind a b : tally kind (a ++ b) = tally kind a + tally kind b.
Proof. unfold tally. now rewrite filter_app, length_app. Qed.

Lemma sizeCalls_short histogram labels buckets header :
  sizeCalls histogram labels buckets header = [] \/
  exists c, sizeCalls histogram labels buckets header = [c].
Proof.
  unfold sizeCalls. destruct buckets; [now left|].
  destruct header as [text|]; [|now left].
  destruct (JS.nonEmpty text); [right; eauto | now left].
Qed.

Lemma makeCalls_adds (first second : MetricCall) (R S : list MetricCall) st :
  (R = [] \/ exists c, R = [c]) ->
  (S = [] \/ exists c, S = [c]) ->
  ((exists err, outcome first = JS.Throw err) /\
   metricCalls (fst (makeCalls ([first; second] ++ R ++ S)%list st))
   = (metricCalls st ++ [first])%list) \/
  exists R' S',
    (R' = [] \/ R' = R) /\ (S' = [] \/ S' = S) /\
    metricCalls (fst (makeCalls ([first; second] ++ R ++ S)%list st))
    = (metricCalls st ++ [first; second] ++ R' ++ S')%list.
Proof.
  intros [->|[r ->]] [->|[s ->]];
    cbn [List.app makeCalls]; unfold andThen, call;
    (destruct (outcome first) as [[]|];
     [right | left; split; [eauto | reflexivity]]);
    destruct (outcome second) as [[]|];
    try destruct (outcome r) as [[]|]; try destruct (outcome s) as [[]|];
    cbn [fst metricCalls]; rewrite <- ?app_assoc; cbn [List.app];
    first [ exists [], []; split; [now left|]; split; [now left|]; reflexivity
          | exists [r], []; split; [now right|]; split; [now left|];
            reflexivity
          | exists [], [s]; split; [now left|]; split; [now right|];
            reflexivity
          | exists [r], [s]; split; [now right|]; split; [now right|];
            reflexivity ].
Qed.

(** The calls one run of the callback adds: none; or the counter increment
    alone, when it throws; or the counter increment and the duration
    observation followed by those of the size observations that were
    reached. *)
Lemma recordResponse_adds st req res time :
  metricCalls (fst (recordResponse st req res time)) = metricCalls st \/
  exists labels,
    (hookDeclares -> undeclaredLabel labels = None) /\
    (((exists err, outcome (RequestCountInc labels) = JS.Throw err) /\
      metricCalls (fst (recordResponse st req res time))
      = (metricCalls st ++ [RequestCountInc labels])%list) \/
     exists R' S',
       (R' = [] \/
        R' = sizeCalls RequestLengthObserve labels
               (requestLengthBuckets options) (req_contentLength req)) /\
       (S' = [] \/
        S' = sizeCalls ResponseLengthObserve labels
               (responseLengthBuckets options) (res_contentLength res)) /\
       metricCalls (fst (recordResponse st req res time)) =
       (metricCalls st
        ++ [RequestCountInc labels;
            RequestDurationObserve labels
              (PrimFloat.div time (JS.numberOfZ 1000))]
        ++ R' ++ S')%list).
Proof.
  rewrite recordResponse_stages.
  pose proof (labelStage_metricCalls st req) as Hm.
  destruct (labelStage st req) as [st' [[p|]|e]]; cbn [fst] in *; auto.
  rewrite assembleAndObserve_labels.
  assert (Hdeclared :
            forall labels,
              match transformLabels options with
              | Some hook => hook (assembledLabels p req res) req res
              | None => JS.Normal (assembledLabels p req res)
              end = JS.Normal labels ->
              hookDeclares -> undeclaredLabel labels = None).
  { intros labels Hlabels Hhook.
    destruct (transformLabels options) as [hook|] eqn:Eh.
    - exact (Hhook hook _ req res labels Eh Hlabels).
    - inversion Hlabels. apply assembledLabels_declared. }
  destruct (match transformLabels options with
            | Some hook => hook (assembledLabels p req res) req res
            | None => JS.Normal (assembledLabels p req res)
            end) as [labels|err]; cbn [fst]; auto.
  right. exists labels. split; [now apply Hdeclared|].
  rewrite observe_makeCalls. unfold plannedCalls.
  rewrite <- Hm. apply makeCalls_adds; apply sizeCalls_short.
Qed.

Lemma serve_balanced st r :
  balanced (metricCalls st) -> balanced (metricCalls (serve st r)).
Proof.
  destruct r as [[req res] time]. unfold serve.
  intros Hb.
  destruct (recordResponse_adds st req res time)
    as [->|[labels [_ [[_ ->]|[R' [S' [HR [HS ->]]]]]]]]; [exact Hb| |].
  { destruct Hb as [H1 [H2 [H3 [H4 H5]]]].
    unfold balanced. rewrite !tally_app.
    change (tally isCountInc [RequestCountInc labels]) with 1.
    change (tally isDurationObserve [RequestCountInc labels]) with 0.
    change (tally isRequestLengthObserve [RequestCountInc labels]) with 0.
    change (tally isResponseLengthObserve [RequestCountInc labels]) with 0.
    repeat split; try lia.
    - intros Hempty. specialize (H4 Hempty). lia.
    - intros Hempty. specialize (H5 Hempty). lia. }
  destruct Hb as [H1 [H2 [H3 [H4 H5]]]].
  assert (Sreq : tally isRequestLengthObserve R' <= 1 /\
                 (requestLengthBuckets options = [] ->
                  tally isRequestLengthObserve R' = 0) /\
                 tally isCountInc R' = 0 /\
                 tally isDurationObserve R' = 0 /\
                 tally isResponseLengthObserve R' = 0).
  { destruct HR as [-> | ->]; [cbn; repeat split; auto|].
    unfold sizeCalls.
    destruct (requestLengthBuckets options);
      [cbn; repeat split; auto|].
    destruct (req_contentLength req) as [a|]; [|cbn; repeat split; auto; lia].
    destruct (JS.nonEmpty a); cbn; repeat split; auto; discriminate. }
  assert (Sres : tally isResponseLengthObserve S' <= 1 /\
                 (responseLengthBuckets options = [] ->
                  tally isResponseLengthObserve S' = 0) /\
                 tally isCountInc S' = 0 /\
                 tally isDurationObserve S' = 0 /\
                 tally isRequestLengthObserve S' = 0).
  { destruct HS as [-> | ->]; [cbn; repeat split; auto|].
    unfold sizeCalls.
    destruct (responseLengthBuckets options);
      [cbn; repeat split; auto|].
    destruct (res_contentLength res) as [a|]; [|cbn; repeat split; auto; lia].
    destruct (JS.nonEmpty a); cbn; repeat split; auto; discriminate. }
  destruct Sreq as [L1 [E1 [C1 [C2 C3]]]].
  destruct Sres as [L2 [E2 [C4 [C5 C6]]]].
  unfold balanced. rewrite !tally_app.
  change (tally isCountInc [RequestCountInc labels;
            RequestDurationObserve labels
              (PrimFloat.div time (JS.numberOfZ 1000))]) with 1.
  change (tally isDurationObserve [RequestCountInc labels;
            RequestDurationObserve labels
              (PrimFloat.div time (JS.numberOfZ 1000))]) with 1.
  change (tally isRequestLengthObserve [RequestCountInc labels;
            RequestDurationObserve labels
              (PrimFloat.div time (JS.numberOfZ 1000))]) with 0.
  change (tally isResponseLengthObserve [RequestCountInc labels;
            RequestDurationObserve labels
              (PrimFloat.div time (JS.numberOfZ 1000))]) with 0.
  rewrite C1, C2, C3, C4, C5, C6.
  repeat split; try lia.
  - intros Hempty. rewrite (E1 Hempty). specialize (H4 Hempty). lia.
  - intros Hempty. rewrite (E2 Hempty). specialize (H5 Hempty). lia.
Qed.

Lemma serve_paired st r :
  hookDeclares ->
  tally isCountInc (metricCalls st) = tally isDurationObserve (metricCalls st) ->
  tally isCountInc (metricCalls (serve st r))
  = tally isDurationObserve (metricCalls (serve st r)).
Proof.
  destruct r as [[req res] time]. unfold serve.
  intros Hhook Hb.
  destruct (recordResponse_adds st req res time)
    as [->|[labels [Hdeclared [[[err Herr] _]|[R' [S' [HR [HS ->]]]]]]]];
    [exact Hb| |].
  { assert (Hreturns : outcome (RequestCountInc labels) = JS.Normal tt).
    { apply outcome_returns. split; [now apply Hdeclared|]. discriminate. }
    congruence. }
  assert (HR0 : tally isCountInc R' = 0 /\ tally isDurationObserve R' = 0).
  { destruct HR as [-> | ->]; [split; reflexivity|].
    unfold sizeCalls. destruct (requestLengthBuckets options);
      [split; reflexivity|].
    destruct (req_contentLength req) as [a|]; [|split; reflexivity].
    destruct (JS.nonEmpty a); split; reflexivity. }
  assert (HS0 : tally isCountInc S' = 0 /\ tally isDurationObserve S' = 0).
  { destruct HS as [-> | ->]; [split; reflexivity|].
    unfold sizeCalls. destruct (responseLengthBuckets options);
      [split; reflexivity|].
    destruct (res_contentLength res) as [a|]; [|split; reflexivity].
    destruct (JS.nonEmpty a); split; reflexivity. }
  destruct HR0 as [A1 A2]. destruct HS0 as [B1 B2].
  rewrite !tally_app, A1, A2, B1, B2.
  change (tally isCountInc [RequestCountInc labels;
            RequestDurationObserve labels
              (PrimFloat.div time (JS.numberOfZ 1000))]) with 1.
  change (tally isDurationObserve [RequestCountInc labels;
            RequestDurationObserve labels
              (PrimFloat.div time (JS.numberOfZ 1000))]) with 1.
  lia.
Qed.

Lemma serveAll_extends rs : forall st,
  exists added, metricCalls (serveAll st rs) = (metricCalls st ++ added)%list.
Proof.
  unfold serveAll.
  induction rs as [|r rs IH]; intros st; cbn [fold_left].
  - exists []. now rewrite app_nil_r.
  - destruct (IH (serve st r)) as [added ->].
    destruct r as [[req res] time]. unfold serve.
    destruct (recordResponse_adds st req res time)
      as [->|[labels [_ [[_ ->]|[R' [S' [_ [_ ->]]]]]]]].
    + exists added. reflexivity.
    + eexists. rewrite <- app_assoc. reflexivity.
    + eexists. rewrite <- app_assoc. reflexivity.
Qed.

(** X9: over any sequence of requests the calls made on the metrics only
    accumulate - earlier calls are never dropped or reordered - and,
    counted from a fresh middleware, the duration histogram is never
    called more often than the counter, neither size histogram is called
    more often than the duration histogram, and a size histogram whose
    bucket list is empty is never called at all; when the transform hook
    leaves only declared label names (or there is none), every counter
    increment is matched by exactly one duration observation. *)
Theorem metric_calls_accumulate_in_step :
  (forall st rs,
      exists added,
        metricCalls (serveAll st rs) = (metricCalls st ++ added)%list) /\
  (forall rs,
      tally isDurationObserve (metricCalls (serveAll initialState rs))
      <= tally isCountInc (metricCalls (serveAll initialState rs)) /\
      tally isRequestLengthObserve (metricCalls (serveAll initialState rs))
      <= tally isDurationObserve (metricCalls (serveAll initialState rs)) /\
      tally isResponseLengthObserve (metricCalls (serveAll initialState rs))
      <= tally isDurationObserve (metricCalls (serveAll initialState rs)) /\
      (requestLengthBuckets options = [] ->
       tally isRequestLengthObserve
         (metricCalls (serveAll initialState rs)) = 0) /\
      (responseLengthBuckets options = [] ->
       tally isResponseLengthObserve
         (metricCalls (serveAll initialState rs)) = 0)) /\
  (hookDeclares ->
   forall rs,
     tally isCountInc (metricCalls (serveAll initialState rs))
     = tally isDurationObserve (metricCalls (serveAll initialState rs))).
Proof.
  split; [intros st rs; apply serveAll_extends|]. split.
  - intros rs.
    assert (H : forall st, balanced (metricCalls st) ->
                           balanced (metricCalls (serveAll st rs))).
    { unfold serveAll.
      induction rs as [|r rs IH]; intros st Hb; cbn [fold_left];
        [exact Hb|]. apply IH, serve_balanced, Hb. }
    apply (H initialState). unfold balanced. cbn. repeat split; auto.
  - intros Hhook rs.
    assert (H : forall st,
               tally isCountInc (metricCalls st)
               = tally isDurationObserve (metricCalls st) ->
               tally isCountInc (metricCalls (serveAll st rs))
               = tally isDurationObserve (metricCalls (serveAll st rs))).
    { unfold serveAll.
      induction rs as [|r rs IH]; intros st Hb; cbn [fold_left];
        [exact Hb|]. apply IH, serve_paired; assumption. }
    apply (H initialState). reflexivity.
Qed.

(** X14: when the labels carry a name the metrics were not created with
    (a transform hook added it), the callback ends at its first metric
    call: [requestCount.inc] throws, and no histogram is called. *)
Theorem undeclared_label_stops_at_the_counter
  st req res time st' path' labels label :
  labelStage st req = (st', JS.Normal (Some path')) ->
  transformedLabels path' req res = JS.Normal labels ->
  undeclaredLabel labels = Some label ->
  snd (recordResponse st req res time)
  = JS.Throw ("Error: Added label " ++ JS.quoted label
              ++ " is not included in initial labelset") /\
  metricCalls (fst (recordResponse st req res time))
  = (metricCalls st ++ [RequestCountInc labels])%list.
Proof.
  intros Hstage Hlabels Hlabel.
  rewrite (recordResponse_observes st req res time st' path' labels
             Hstage Hlabels).
  pose proof (labelStage_metricCalls st req) as Hm.
  rewrite Hstage in Hm. cbn [fst] in Hm.
  rewrite observe_makeCalls. unfold plannedCalls.
  cbn [List.app makeCalls]. unfold andThen, call, outcome, labelError.
  cbn [callLabels]. rewrite Hlabel. cbn [fst snd metricCalls].
  now rewrite Hm.
Qed.

(** *** An empty catalog *)

Lemma empty_catalog_step st req res time :
  collectAnyPaths options = false ->
  allowedRoutes (fst (recordResponse st req res time)) = [] ->
  metricCalls (fst (recordResponse st req res time)) = metricCalls st.
Proof.
  intros Hany.
  destruct (recordResponse_catalog st req res time) as [_ ->].
  rewrite recordResponse_stages.
  pose proof (labelStage_metricCalls st req) as Hm.
  destruct (labelStage st req) as [st' [[p|]|err]] eqn:Hstage;
    cbn [fst] in *; auto.
  intros Hempty.
  pose proof (labelStage_allowed st req st' p Hstage Hany) as Hallowed.
  rewrite Hempty in Hallowed. discriminate.
Qed.

Lemma serve_catalog_grows st r :
  exists added, allowedRoutes (serve st r) = (allowedRoutes st ++ added)%list.
Proof.
  destruct r as [[req res] time]. unfold serve.
  destruct (recordResponse_catalog st req res time) as [_ ->].
  destruct (labelStage_catalog st req) as [[_ ->]|[_ [_ [routes [_ ->]]]]].
  - exists []. now rewrite app_nil_r.
  - eexists. reflexivity.
Qed.

Lemma serveAll_catalog_grows rs : forall st,
  exists added,
    allowedRoutes (serveAll st rs) = (allowedRoutes st ++ added)%list.
Proof.
  unfold serveAll.
  induction rs as [|r rs IH]; intros st; cbn [fold_left].
  - exists []. now rewrite app_nil_r.
  - destruct (IH (serve st r)) as [added ->].
    destruct (serve_catalog_grows st r) as [first ->].
    eexists. rewrite <- app_assoc. reflexivity.
Qed.

Lemma serveAll_empty_catalog rs :
  collectAnyPaths options = false ->
  forall st,
    allowedRoutes (serveAll st rs) = [] ->
    metricCalls (serveAll st rs) = metricCalls st.
Proof.
  intros Hany. unfold serveAll.
  induction rs as [|r rs IH]; intros st Hempty; cbn [fold_left] in *;
    [reflexivity|].
  rewrite (IH _ Hempty).
  destruct (serveAll_catalog_grows rs (serve st r)) as [added Hgrow].
  unfold serveAll in Hgrow. rewrite Hempty in Hgrow.
  symmetry in Hgrow. apply app_eq_nil in Hgrow as [Hstep _].
  destruct r as [[req res] time]. unfold serve in *.
  apply empty_catalog_step; assumption.
Qed.

(** X10: with catalog enforcement on, a run that ends with an empty
    catalog has recorded nothing; in particular, once discovery has
    completed with no route at all (flag set, catalog empty), no later
    request is ever recorded and the catalog stays empty. *)
Theorem empty_catalog_records_nothing_ever :
  collectAnyPaths options = false ->
  (forall st rs,
      allowedRoutes (serveAll st rs) = [] ->
      metricCalls (serveAll st rs) = metricCalls st) /\
  (forall st rs,
      isAllowedRoutesInitialized st = true ->
      allowedRoutes st = [] ->
      allowedRoutes (serveAll st rs) = [] /\
      metricCalls (serveAll st rs) = metricCalls st).
Proof.
  intros Hany. split.
  - intros st rs. apply serveAll_empty_catalog, Hany.
  - intros st rs Hflag Hempty.
    destruct (serveAll_frozen rs st Hflag) as [_ Hsame].
    assert (Hstill : allowedRoutes (serveAll st rs) = []) by congruence.
    split; [exact Hstill|].
    apply serveAll_empty_catalog; assumption.
Qed.

(** X11: with catalog enforcement on, as long as discovery throws for the
    application of every request served, the flag stays unset, the catalog
    stays empty and nothing is recorded - discovery is attempted again by
    each request that passes the gate - while the sampling counter goes on
    counting. *)
Theorem failing_discovery_is_retried_and_records_nothing
  (rs : list Served) :
  collectAnyPaths options = false ->
  (forall r, In r rs ->
             exists err, extractRoutes (req_app (fst (fst r))) = JS.Throw err) ->
  isAllowedRoutesInitialized (serveAll initialState rs) = false /\
  allowedRoutes (serveAll initialState rs) = [] /\
  metricCalls (serveAll initialState rs) = [] /\
  sampleCount (serveAll initialState rs)
  = (Z.of_nat (List.length (filter evaluated rs)) mod 101)%Z.
Proof.
  intros Hany Hthrows.
  assert (Hbuilt : builtOnce (serveAll initialState rs) rs).
  { apply (serveAll_builtOnce rs [] initialState). left. split; reflexivity. }
  destruct Hbuilt as [[Hflag Hempty]|[_ [r [routes [Hin [Hx _]]]]]].
  - split; [exact Hflag|]. split; [exact Hempty|]. split.
    + apply (serveAll_empty_catalog rs Hany initialState Hempty).
    + rewrite serveAll_sampleCount_mod; [reflexivity | cbn; lia].
  - destruct (Hthrows r Hin) as [err Herr]. congruence.
Qed.

(** X12: the catalog is append-only over any run: no entry is ever
    removed, so a (method, path) pair that lookup accepts is accepted
    after any further requests. *)
Theorem allowed_pairs_stay_allowed st rs :
  (exists added,
      allowedRoutes (serveAll st rs) = (allowedRoutes st ++ added)%list) /\
  (forall m p,
      isPathAllowed (allowedRoutes st) m p = true ->
      isPathAllowed (allowedRoutes (serveAll st rs)) m p = true).
Proof.
  destruct (serveAll_catalog_grows rs st) as [added Hgrow].
  split; [exists added; exact Hgrow|].
  intros m p Hallowed. rewrite Hgrow.
  apply isPathAllowed_iff in Hallowed as [e [Hin He]].
  apply isPathAllowed_iff. exists e. split; [|exact He].
  apply in_or_app. left. exact Hin.
Qed.

(** *** The scrape path, exactly *)

Lemma advance_moves (c : Z) : advance c <> c.
Proof.
  unfold advance, samplePercent. destruct (c =? 100)%Z eqn:E; [|lia].
  apply Z.eqb_eq in E. lia.
Qed.

Lemma append_neq (m suffix : string) : suffix <> "" -> m ++ suffix <> m.
Proof.
  intros Hs. induction m as [|c m IH]; cbn; [exact Hs|].
  intros H. inversion H. contradiction.
Qed.

(** X13: a request is exempt from the gate exactly when its raw URL is
    string-equal to the scrape path: the callback leaves the sampling
    counter alone for that URL and for no other, so a URL that extends the
    scrape path by any non-empty suffix (a query string, a trailing slash)
    advances the counter like any request. *)
Theorem scrape_exemption_is_exact_string_equality st req res time :
  (sampleCount (fst (recordResponse st req res time)) = sampleCount st <->
   originalUrl req = metricsPath options) /\
  (forall suffix,
      suffix <> "" ->
      originalUrl req = metricsPath options ++ suffix ->
      sampleCount (fst (recordResponse st req res time))
      = advance (sampleCount st)).
Proof.
  rewrite recordResponse_sampleCount.
  destruct (String.eqb (originalUrl req) (metricsPath options)) eqn:E.
  - apply String.eqb_eq in E. split; [tauto|].
    intros suffix Hs Hurl. rewrite Hurl in E.
    destruct (append_neq _ _ Hs E).
  - apply String.eqb_neq in E. split; [|reflexivity].
    split; [intros H; destruct (advance_moves _ H) | contradiction].
Qed.

End Middleware.

(** ** The middleware on concrete inputs

    The host functions are instantiated by the models given above, with
    the process working directory at the root. *)

Definition run (o : Options) : State -> list Served -> State :=
  serveAll (posixResolve "/") specNormalizePath specNormalizeStatusCode
    stringToNumber o.

Definition record (o : Options) (st : State) (req : Request) (res : Response)
  (time : float) : State * JS.completion unit :=
  recordResponse (posixResolve "/") specNormalizePath specNormalizeStatusCode
    stringToNumber o st req res time.

Definition discover : App -> JS.completion (list RouteEntry) :=
  extractRoutes (posixResolve "/").

(** C1 as stated fails at sampleRate 0.0 and 0.5.  On a fresh middleware
    serving GET /a a hundred and one times, the first hundred evaluations
    bring the counter to 100; the next one wraps it to 0, and 0 / 100 <= 0.0
    holds, so at rate 0.0 that request is admitted and recorded; at rate
    0.5 the counters 1 to 50 and the wrapped 0 are admitted, 51 requests of
    101. *)
Lemma C1_wrapped_counter_is_admitted_at_rate_zero :
  metricCalls (run (withSampleRate 0 defaultOptions) initialState
                 (repeat (served abApp "/a") 100)) = [] /\
  sampleCount (run (withSampleRate 0 defaultOptions) initialState
                 (repeat (served abApp "/a") 100)) = 100%Z /\
  isSampled (withSampleRate 0 defaultOptions) (advance 100) = true /\
  metricCalls (run (withSampleRate 0 defaultOptions) initialState
                 (repeat (served abApp "/a") 101))
  = [RequestCountInc [("route", "/a"); ("method", "GET"); ("status", "2xx")];
     RequestDurationObserve
       [("route", "/a"); ("method", "GET"); ("status", "2xx")]
       (PrimFloat.div 12 1000)] /\
  List.length
    (filter (fun c => match c with RequestCountInc _ => true | _ => false end)
       (metricCalls (run (withSampleRate 0.5 defaultOptions) initialState
                       (repeat (served abApp "/a") 101)))) = 51%nat.
Proof. repeat split; vm_compute; reflexivity. Qed.

(** C4 at the default options: a GET of /metrics leaves a fresh state as
    it is. *)
Lemma C4_witness :
  record defaultOptions initialState (getRequest abApp "/metrics")
    okResponse 12 = (initialState, JS.Normal tt).
Proof.
  exact (proj1 (C4_scrape_path_request_is_inert
                  (posixResolve "/") specNormalizePath specNormalizeStatusCode
                  stringToNumber defaultOptions initialState
                  (getRequest abApp "/metrics") okResponse 12%float eq_refl)).
Defined.

(** C5 as stated fails: after one hundred evaluated requests the counter
    holds 100, outside the half-open interval. *)
Lemma C5_counter_reaches_100 :
  sampleCount (run defaultOptions initialState
                 (repeat (served abApp "/a") 100)) = 100%Z.
Proof. vm_compute. reflexivity. Qed.

(** C2 on two applications: the catalog built from the first request's
    application is kept when a later request carries another one. *)
Lemma C2_witness :
  allowedRoutes (run defaultOptions initialState [served abApp "/a"])
  = [mkEntry "GET" "/a"; mkEntry "POST" "/a"; mkEntry "GET" "/b"] /\
  allowedRoutes
    (run defaultOptions
       (run defaultOptions initialState [served abApp "/a"])
       [served widgetsApp "/widgets/7"; served abApp "/b"])
  = allowedRoutes (run defaultOptions initialState [served abApp "/a"]).
Proof.
  split; [vm_compute; reflexivity|].
  apply (proj1 (proj2 (C2_catalog_built_once_and_exact_lookup
                         (posixResolve "/") specNormalizePath
                         specNormalizeStatusCode stringToNumber defaultOptions))
           (run defaultOptions initialState [served abApp "/a"])).
  vm_compute. reflexivity.
Defined.

(** C2 as stated fails: the first request, carrying a bare router whose
    discovery throws, triggers discovery but sets no flag and stores
    nothing; the second request runs discovery again, sets the flag and
    adds the three entries of its application. *)
Lemma C2_failed_discovery_is_run_again :
  snd (record defaultOptions initialState (getRequest bareRouter "/users/7")
         okResponse 12)
  = JS.Throw "TypeError: Cannot read properties of undefined (reading 'toString')" /\
  isAllowedRoutesInitialized
    (run defaultOptions initialState [served bareRouter "/users/7"]) = false /\
  allowedRoutes
    (run defaultOptions initialState [served bareRouter "/users/7"]) = [] /\
  isAllowedRoutesInitialized
    (run defaultOptions initialState
       [served bareRouter "/users/7"; served abApp "/a"]) = true /\
  allowedRoutes
    (run defaultOptions initialState
       [served bareRouter "/users/7"; served abApp "/a"])
  = [mkEntry "GET" "/a"; mkEntry "POST" "/a"; mkEntry "GET" "/b"].
Proof. repeat split; vm_compute; reflexivity. Qed.

(** C6 as stated fails: a bare router whose mounting layer has no regexp
    makes discovery throw in the unguarded [app.stack] branch. *)
Lemma C6_unguarded_branch_propagates :
  discover bareRouter
  = JS.Throw "TypeError: Cannot read properties of undefined (reading 'toString')".
Proof. vm_compute. reflexivity. Qed.

(** C6 on an application whose [router] getter throws, and on one whose
    [app.router.stack] cannot be expanded: both discover nothing. *)
Lemma C6_witness :
  discover throwingRouterApp = JS.Normal [] /\
  discover newerApp = JS.Normal [].
Proof.
  pose proof (proj1 (C6_guarded_discovery_failure_gives_empty_catalog
                       (posixResolve "/") specNormalizePath
                       specNormalizeStatusCode stringToNumber defaultOptions))
    as guarded.
  split.
  - refine (proj1 (proj2 (guarded throwingRouterApp eq_refl _ eq_refl))
              "Error: 'app.router' is deprecated!" eq_refl).
    intros stack; discriminate.
  - refine (proj2 (proj2 (guarded newerApp eq_refl _ eq_refl))
              _ _ eq_refl eq_refl).
    intros stack; discriminate.
Defined.

(** C3 as stated fails: with no custom masks and catalog enforcement off, a
    GET of /users/:id is recorded under the route label /users/:id, while
    normalisation under the user masks followed by the built-in mask would
    have given /users/#val. *)
Lemma C3_request_path_misses_builtin_mask :
  metricCalls (run (anyPaths defaultOptions) initialState
                 [served abApp "/users/:id"])
  = [RequestCountInc
       [("route", "/users/:id"); ("method", "GET"); ("status", "2xx")];
     RequestDurationObserve
       [("route", "/users/:id"); ("method", "GET"); ("status", "2xx")]
       (PrimFloat.div 12 1000)] /\
  specNormalizePath "/users/:id"
    (extraMasks (anyPaths defaultOptions) ++ [expressPathParameterRegex])
  = "/users/#val".
Proof. split; vm_compute; reflexivity. Qed.

(** C3 on the application with GET /widgets/:id: the request path is
    normalised under the user masks alone, and the catalog stores the route
    patterns with their parameters masked; so a GET of /widgets/7 is
    recorded under /widgets/#val and a GET of /unregistered is not
    recorded. *)
Lemma C3_witness :
  "/a" = specNormalizePath "/a" (extraMasks defaultOptions) /\
  allowedRoutes
    (fst (initializeAllowedRoutes (posixResolve "/") specNormalizePath
            defaultOptions initialState (getRequest widgetsApp "/x")))
  = [mkEntry "GET" "/widgets/#val"; mkEntry "GET" "/api/users/#val";
     mkEntry "PUT" "/api/users/#val"] /\
  metricCalls (run defaultOptions initialState
                 [served widgetsApp "/widgets/7";
                  served widgetsApp "/unregistered"])
  = [RequestCountInc
       [("route", "/widgets/#val"); ("method", "GET"); ("status", "2xx")];
     RequestDurationObserve
       [("route", "/widgets/#val"); ("method", "GET"); ("status", "2xx")]
       (PrimFloat.div 12 1000)].
Proof.
  pose proof (C3_builtin_mask_is_for_route_patterns_only
                (posixResolve "/") specNormalizePath specNormalizeStatusCode
                stringToNumber defaultOptions) as [Hlabel [_ [_ [Hcatalog _]]]].
  split; [|split].
  - apply (Hlabel initialState (getRequest abApp "/a")
             (fst (labelStage (posixResolve "/") specNormalizePath
                     defaultOptions initialState (getRequest abApp "/a")))).
    vm_compute. reflexivity.
  - rewrite (Hcatalog initialState (getRequest widgetsApp "/x")
               [mkEntry "GET" "/widgets/:id"; mkEntry "GET" "/api/users/:id";
                mkEntry "PUT" "/api/users/:id"]).
    + vm_compute. reflexivity.
    + vm_compute. reflexivity.
  - vm_compute. reflexivity.
Defined.

(** C7 on the route node mounted under /api with handlers get, put, get:
    two entries, GET and PUT, both at /api/users/:id. *)
Lemma C7_witness :
  NoDup (map method
           (stackEntries (posixResolve "/")
              (withRouterPath "/api/"
                 (routeLayer "/users/:id" ["get"; "put"; "get"])))) /\
  stackEntries (posixResolve "/")
    (withRouterPath "/api/" (routeLayer "/users/:id" ["get"; "put"; "get"]))
  = [mkEntry "GET" "/api/users/:id"; mkEntry "PUT" "/api/users/:id"].
Proof.
  split.
  - exact (proj1 (C7_one_entry_per_verb_with_resolved_path
                    (posixResolve "/")
                    (withRouterPath "/api/"
                       (routeLayer "/users/:id" ["get"; "put"; "get"]))
                    (mkRoute (Some "/users/:id")
                       (map verb ["get"; "put"; "get"]))
                    eq_refl)).
  - vm_compute. reflexivity.
Defined.

(** C8 as stated fails: with both bucket lists configured, a request whose
    Content-Length header reads abc still reaches the request-size
    histogram, with the value NaN; the histogram rejects it, the callback
    ends with that TypeError, and the response-size histogram, whose header
    reads 77, is not reached. *)
Lemma C8_non_numeric_header_is_observed :
  metricCalls
    (fst (record (withLengthBuckets [1024%float] defaultOptions) initialState
            (postRequest abApp "abc") (mkResponse 200 (Some "77")) 12))
  = [RequestCountInc [("route", "/a"); ("method", "POST"); ("status", "2xx")];
     RequestDurationObserve
       [("route", "/a"); ("method", "POST"); ("status", "2xx")]
       (PrimFloat.div 12 1000);
     RequestLengthObserve
       [("route", "/a"); ("method", "POST"); ("status", "2xx")]
       (stringToNumber "abc")] /\
  PrimFloat.is_nan (stringToNumber "abc") = true /\
  snd (record (withLengthBuckets [1024%float] defaultOptions) initialState
         (postRequest abApp "abc") (mkResponse 200 (Some "77")) 12)
  = JS.Throw "TypeError: Value is not a valid number: NaN".
Proof. repeat split; vm_compute; reflexivity. Qed.

(** C8 on a POST carrying Content-Length 512 whose response carries
    Content-Length 77, with buckets configured: the callback ends in the
    metric calls of [observe], all four of them, and returns. *)
Lemma C8_witness :
  record (withLengthBuckets [1024%float] defaultOptions) initialState
    (postRequest abApp "512") (mkResponse 200 (Some "77")) 12
  = observe stringToNumber (withLengthBuckets [1024%float] defaultOptions)
      [("route", "/a"); ("method", "POST"); ("status", "2xx")]
      (postRequest abApp "512") (mkResponse 200 (Some "77")) 12
      (fst (labelStage (posixResolve "/") specNormalizePath
              (withLengthBuckets [1024%float] defaultOptions) initialState
              (postRequest abApp "512"))) /\
  metricCalls
    (fst (record (withLengthBuckets [1024%float] defaultOptions) initialState
            (postRequest abApp "512") (mkResponse 200 (Some "77")) 12))
  = [RequestCountInc [("route", "/a"); ("method", "POST"); ("status", "2xx")];
     RequestDurationObserve
       [("route", "/a"); ("method", "POST"); ("status", "2xx")]
       (PrimFloat.div 12 1000);
     RequestLengthObserve
       [("route", "/a"); ("method", "POST"); ("status", "2xx")] 512;
     ResponseLengthObserve
       [("route", "/a"); ("method", "POST"); ("status", "2xx")] 77] /\
  snd (record (withLengthBuckets [1024%float] defaultOptions) initialState
         (postRequest abApp "512") (mkResponse 200 (Some "77")) 12)
  = JS.Normal tt.
Proof.
  split; [|split; vm_compute; reflexivity].
  apply (proj1 (proj2 (C8_size_histograms_follow_buckets_and_header
                         (posixResolve "/") specNormalizePath
                         specNormalizeStatusCode stringToNumber
                         (withLengthBuckets [1024%float] defaultOptions)))
           initialState (postRequest abApp "512") (mkResponse 200 (Some "77"))
           12%float _ "/a").
  - vm_compute. reflexivity.
  - vm_compute. reflexivity.
Defined.

(** C9 with a hook that settles to [false] and with one that throws: the
    handler only calls next. *)
Lemma C9_witness :
  metricsHandler
    (withAuthenticate (fun _ => JS.Normal (JS.VBool false)) defaultOptions)
    (getRequest abApp "/metrics") "text/plain" "up 1" = [CallNext] /\
  metricsHandler
    (withAuthenticate (fun _ => JS.Throw "denied") defaultOptions)
    (getRequest abApp "/metrics") "text/plain" "up 1" = [CallNext].
Proof.
  split.
  - apply (proj1 (proj2 (proj1 (C9_failed_authentication_passes_control_onward
             (withAuthenticate (fun _ => JS.Normal (JS.VBool false))
                defaultOptions)
             (getRequest abApp "/metrics") "text/plain" "up 1")
           _ eq_refl)) (JS.VBool false)); reflexivity.
  - apply (proj1 (proj1 (C9_failed_authentication_passes_control_onward
             (withAuthenticate (fun _ => JS.Throw "denied") defaultOptions)
             (getRequest abApp "/metrics") "text/plain" "up 1")
           _ eq_refl) "denied"); reflexivity.
Defined.

(** C10 with a transform hook that always throws: a GET of /a ends with
    the hook's exception and an empty list of metric calls. *)
Lemma C10_witness :
  record (withTransform (fun _ _ _ => JS.Throw "boom") defaultOptions)
    initialState (getRequest abApp "/a") okResponse 12
  = (fst (labelStage (posixResolve "/") specNormalizePath
            (withTransform (fun _ _ _ => JS.Throw "boom") defaultOptions)
            initialState (getRequest abApp "/a")),
     JS.Throw "boom") /\
  metricCalls
    (fst (labelStage (posixResolve "/") specNormalizePath
            (withTransform (fun _ _ _ => JS.Throw "boom") defaultOptions)
            initialState (getRequest abApp "/a")))
  = metricCalls initialState.
Proof.
  apply (C10_transform_error_aborts_before_metrics
           (posixResolve "/") specNormalizePath specNormalizeStatusCode
           stringToNumber
           (withTransform (fun _ _ _ => JS.Throw "boom") defaultOptions)
           initialState (getRequest abApp "/a") okResponse 12%float
           (fun _ _ _ => JS.Throw "boom") "boom" _ "/a").
  - reflexivity.
  - vm_compute. reflexivity.
  - reflexivity.
Defined.

(** X1 at rate 0.5 after fifty requests: the fifty-first request meets
    the counter 51 and is rejected. *)
Lemma gate_after_any_requests_witness :
  isSampled (withSampleRate 0.5 defaultOptions)
    (advance (sampleCount (run (withSampleRate 0.5 defaultOptions)
                             initialState (repeat (served abApp "/a") 50))))
  = false.
Proof.
  unfold run.
  rewrite (proj2 (proj2 (gate_after_any_requests
                           (posixResolve "/") specNormalizePath
                           specNormalizeStatusCode stringToNumber
                           (withSampleRate 0.5 defaultOptions)
                           (repeat (served abApp "/a") 50))) eq_refl).
  vm_compute. reflexivity.
Defined.

(** X4 for a router mounted at /api: the printed pattern is the one the
    mounting layer of the widgets application carries, and the fragment
    handed to its children is /api/. *)
Lemma mounted_routes_carry_the_mount_prefix_witness :
  mountPattern false "/api" = Some "/^\/api\/?(?=\/|$)/i" /\
  getPathFromRegex "/^\/api\/?(?=\/|$)/i" = "/api/" /\
  combineStacks []
    (mkLayer None None (Some "/^\/api\/?(?=\/|$)/i")
       (Some [routeLayer "/users/:id" ["get"]]))
  = JS.Normal [withRouterPath "/api/" (routeLayer "/users/:id" ["get"])] /\
  getPathFromRegex "/^\/api\/?(?=\/|$)/" = "/api/?(?=/|$)/".
Proof.
  pose proof (mounted_routes_carry_the_mount_prefix (posixResolve "/")
                "/api" "/^\/api\/?(?=\/|$)/i" []
                [routeLayer "/users/:id" ["get"]] None None eq_refl)
    as [Hpath [Hcombine [_ Hsensitive]]].
  split; [reflexivity|]. split; [exact Hpath|]. split; [exact Hcombine|].
  exact (Hsensitive "/^\/api\/?(?=\/|$)/" eq_refl).
Defined.

(** X7 on the Express 3 application: three entries, the repeated route
    listed twice. *)
Lemma legacy_route_table_witness :
  discover legacyApp
  = JS.Normal [mkEntry "GET" "/a"; mkEntry "GET" "/a"; mkEntry "POST" "/b"].
Proof.
  unfold discover.
  rewrite (legacy_route_table_is_listed_route_by_route (posixResolve "/")
             legacyApp _ eq_refl).
  vm_compute. reflexivity.
Defined.

(** X10 after a first request whose application only has a throwing
    [router] getter: two later requests for routes of a proper application
    are not recorded. *)
Lemma empty_catalog_records_nothing_ever_witness :
  metricCalls
    (run defaultOptions
       (run defaultOptions initialState [served throwingRouterApp "/a"])
       [served abApp "/a"; served abApp "/b"])
  = metricCalls
      (run defaultOptions initialState [served throwingRouterApp "/a"]).
Proof.
  apply (proj2 (empty_catalog_records_nothing_ever
                  (posixResolve "/") specNormalizePath specNormalizeStatusCode
                  stringToNumber defaultOptions eq_refl)
           (run defaultOptions initialState [served throwingRouterApp "/a"])
           [served abApp "/a"; served abApp "/b"]).
  - vm_compute. reflexivity.
  - vm_compute. reflexivity.
Defined.

(** X11 on three requests carrying the bare router whose mounting layer
    has no regexp: the flag is still unset, nothing is recorded, and the
    counter stands at 3. *)
Lemma failing_discovery_witness :
  isAllowedRoutesInitialized
    (run defaultOptions initialState (repeat (served bareRouter "/users/7") 3))
  = false /\
  metricCalls
    (run defaultOptions initialState (repeat (served bareRouter "/users/7") 3))
  = [] /\
  sampleCount
    (run defaultOptions initialState (repeat (served bareRouter "/users/7") 3))
  = 3%Z.
Proof.
  destruct (failing_discovery_is_retried_and_records_nothing
              (posixResolve "/") specNormalizePath specNormalizeStatusCode
              stringToNumber defaultOptions
              (repeat (served bareRouter "/users/7") 3) eq_refl)
    as [Hflag [_ [Hcalls Hcount]]].
  - intros r Hin. apply repeat_spec in Hin. subst r.
    eexists. vm_compute. reflexivity.
  - split; [exact Hflag|]. split; [exact Hcalls|].
    unfold run. rewrite Hcount. vm_compute. reflexivity.
Defined.

(** X14 with a transform hook that adds the label user, which the default
    options do not declare: the counter is called and throws, and that is
    the only call. *)
Lemma undeclared_label_witness :
  snd (record (withTransform
                 (fun labels _ _ => JS.Normal (labels ++ [("user", "u1")])%list)
                 defaultOptions)
         initialState (getRequest abApp "/a") okResponse 12)
  = JS.Throw ("Error: Added label " ++ JS.quoted "user"
              ++ " is not included in initial labelset") /\
  metricCalls
    (fst (record (withTransform
                    (fun labels _ _ =>
                       JS.Normal (labels ++ [("user", "u1")])%list)
                    defaultOptions)
            initialState (getRequest abApp "/a") okResponse 12))
  = (metricCalls initialState
     ++ [RequestCountInc
           [("route", "/a"); ("method", "GET"); ("status", "2xx");
            ("user", "u1")]])%list.
Proof.
  apply (undeclared_label_stops_at_the_counter
           (posixResolve "/") specNormalizePath specNormalizeStatusCode
           stringToNumber
           (withTransform
              (fun labels _ _ => JS.Normal (labels ++ [("user", "u1")])%list)
              defaultOptions)
           initialState (getRequest abApp "/a") okResponse 12%float
           (fst (labelStage (posixResolve "/") specNormalizePath
                   (withTransform
                      (fun labels _ _ =>
                         JS.Normal (labels ++ [("user", "u1")])%list)
                      defaultOptions)
                   initialState (getRequest abApp "/a")))
           "/a" _ "user").
  - vm_compute. reflexivity.
  - vm_compute. reflexivity.
  - vm_compute. reflexivity.
Defined.
